(** * rawpasta-api: a shallow embedding of [src/index.js]

    The Express application stores text files and API keys in two MongoDB
    collections.  Each route handler is embedded as a computation in a small
    state-and-exception monad over the two collections; a JavaScript [throw]
    and a call [next(err)] both deliver an error object to [errorHandler],
    which turns it into the response.

    External collaborators (Math.random, crypto.randomBytes, the OTPAuth
    library, the text of driver errors, number and date formatting) are the
    fields of the class [Platform]. *)

From Stdlib Require Import String Ascii List ZArith NArith QArith Qround Bool Lia Lqa.
From Stdlib Require Import HexadecimalString.
From Stdlib Require Hexadecimal HexadecimalFacts HexadecimalN.
From Stdlib.Strings Require Import Byte.
Import ListNotations.
Local Open Scope nat_scope.
Local Open Scope list_scope.
Local Open Scope string_scope.

(** ** JavaScript values used by the handlers *)

Module Js.

(** A request field is [undefined] ([None]) or a string.  A string is truthy
    unless it is empty. *)
Definition truthy (v : option string) : bool :=
  match v with
  | Some s => negb (s =? EmptyString)
  | None => false
  end.

(** [a || b] on request fields. *)
Definition or (a b : option string) : option string :=
  if truthy a then a else b.

(** The string to use where the code has tested a field for truthiness. *)
Definition present (v : option string) : option string :=
  if truthy v then v else None.

(** [a < b] on numbers. *)
Definition lt (a b : Q) : bool := negb (Qle_bool b a).

(** [s.charAt(i)]: the empty string when [i] is out of range. *)
Definition charAt (s : string) (i : Z) : string :=
  match i with
  | Zneg _ => EmptyString
  | _ => match String.get (Z.to_nat i) s with
         | Some c => String c EmptyString
         | None => EmptyString
         end
  end.

Fixpoint repeat_char (c : ascii) (n : nat) : string :=
  match n with
  | O => EmptyString
  | S k => String c (repeat_char c k)
  end.

(** [s.padStart(n, c)] for a one-character filler. *)
Definition padStart (s : string) (n : nat) (c : ascii) : string :=
  repeat_char c (n - String.length s) ++ s.

(** [n.toString(16)] for a non-negative integer. *)
Definition toString16 (n : N) : string :=
  NilZero.string_of_uint (N.to_hex_uint n).

(** *** Double-precision numbers

    A number is a rational; an arithmetic operation gives the double nearest
    to the exact result. *)

(** [2 ^ z]. *)
Definition pow2 (z : Z) : Q :=
  match z with
  | Zneg p => 1 # (2 ^ p)
  | _ => inject_Z (2 ^ z)
  end.

(** The nearest integer, the even one of two equally near. *)
Definition round_half_even (x : Q) : Z :=
  let f := Qfloor x in
  match Qcompare (x - inject_Z f) (1 # 2) with
  | Lt => f
  | Gt => (f + 1)%Z
  | Eq => if Z.even f then f else (f + 1)%Z
  end.

(** The exponent of a positive number: [2 ^ binade q <= q < 2 ^ (binade q + 1)]. *)
Definition binade (q : Q) : Z :=
  let g := (Z.log2 (Qnum q) - Z.log2 (Zpos (Qden q)))%Z in
  if Qle_bool (pow2 g) q then g else (g - 1)%Z.

(** The double nearest to a positive number (below the overflow threshold):
    a significand of 53 bits, rounded to nearest, ties to even; the subnormal
    numbers are the multiples of [2 ^ -1074]. *)
Definition round_positive (q : Q) : Q :=
  let e := Z.max (binade q - 52) (-1074) in
  (inject_Z (round_half_even (q / pow2 e)) * pow2 e)%Q.

Definition round_double (q : Q) : Q :=
  match Qnum q with
  | Z0 => 0%Q
  | Zpos _ => round_positive q
  | Zneg _ => (- round_positive (- q))%Q
  end.

(** The largest double below 1: [1 - 2 ^ -53]. *)
Definition below_one : Q := 9007199254740991 # 9007199254740992.

(** [Math.floor(r * k)]: the product is rounded to a double, then floored. *)
Definition floor_mul (r : Q) (k : Z) : Z :=
  Qfloor (round_double (r * inject_Z k)).

(** A number (or [null]) used as a condition: [null] and [0] are falsy. *)
Definition truthy_num (v : option Z) : bool :=
  match v with
  | Some d => negb (d =? 0)%Z
  | None => false
  end.

End Js.

(** ** JSON values handed to [res.json] *)

Local Set Warnings "-register-all".

Inductive json : Type :=
| JNum (z : Z)
| JStr (s : string)
| JOid (n : nat)
| JArr (l : list json)
| JObj (l : list (string * json)).

(** The value of property [k] of an object. *)
Fixpoint assoc (k : string) (l : list (string * json)) : option json :=
  match l with
  | [] => None
  | (k', v) :: r => if k' =? k then Some v else assoc k r
  end.

Definition field (k : string) (j : json) : option json :=
  match j with
  | JObj l => assoc k l
  | _ => None
  end.

Definition has_field (k : string) (j : json) : bool :=
  match field k j with Some _ => true | None => false end.

Definition elements (j : json) : list json :=
  match j with
  | JArr l => l
  | _ => []
  end.

(** *** The text [JSON.stringify] produces for a string value *)

Definition dquote_char : ascii := ascii_of_nat 34.

Definition hex_digit (n : N) : ascii :=
  match String.get (N.to_nat n) "0123456789abcdef" with
  | Some c => c
  | None => "0"%char
  end.

(** One code unit of a string inside a JSON string literal: the short escapes,
    [\u00xx] for the other control characters, the character itself
    otherwise. *)
Definition quote_char (c : ascii) : string :=
  let n := N_of_ascii c in
  if (n =? 8)%N then "\b"
  else if (n =? 9)%N then "\t"
  else if (n =? 10)%N then "\n"
  else if (n =? 12)%N then "\f"
  else if (n =? 13)%N then "\r"
  else if (n =? 34)%N then String "\" (String dquote_char EmptyString)
  else if (n =? 92)%N then "\\"
  else if (n <? 32)%N then
    "\u00" ++ String (hex_digit (n / 16)) (String (hex_digit (n mod 16)) EmptyString)
  else String c EmptyString.

Fixpoint quote_chars (s : string) : string :=
  match s with
  | EmptyString => EmptyString
  | String c r => quote_char c ++ quote_chars r
  end.

Definition dquote : string := String dquote_char EmptyString.

(** [JSON.stringify(s)] for a string [s]. *)
Definition JSON_stringify_string (s : string) : string :=
  dquote ++ quote_chars s ++ dquote.

(** Reading one character back from the inside of a JSON string literal, as
    [JSON.parse] does: the character and the rest of the text; nothing at the
    closing quote. *)
Definition hex_value (c : ascii) : option N :=
  let n := N_of_ascii c in
  if ((48 <=? n) && (n <=? 57))%N then Some (n - 48)%N
  else if ((97 <=? n) && (n <=? 102))%N then Some (n - 87)%N
  else None.

Definition unquote_escape (e : ascii) (r : string) : option (ascii * string) :=
  if Ascii.eqb e "b" then Some (ascii_of_nat 8, r)
  else if Ascii.eqb e "t" then Some (ascii_of_nat 9, r)
  else if Ascii.eqb e "n" then Some (ascii_of_nat 10, r)
  else if Ascii.eqb e "f" then Some (ascii_of_nat 12, r)
  else if Ascii.eqb e "r" then Some (ascii_of_nat 13, r)
  else if Ascii.eqb e dquote_char then Some (dquote_char, r)
  else if Ascii.eqb e "\" then Some ("\"%char, r)
  else if Ascii.eqb e "u" then
    match r with
    | String _ (String _ (String h (String l r'))) =>
        match hex_value h, hex_value l with
        | Some a, Some b => Some (ascii_of_N (16 * a + b), r')
        | _, _ => None
        end
    | _ => None
    end
  else None.

Definition unquote_char (s : string) : option (ascii * string) :=
  match s with
  | EmptyString => None
  | String c r =>
      if Ascii.eqb c dquote_char then None
      else if Ascii.eqb c "\" then
        match r with
        | EmptyString => None
        | String e r' => unquote_escape e r'
        end
      else Some (c, r)
  end.

(** ** The two collections

    A collection is the list of its documents in storage order: [save]
    appends, and a query without a sort visits the documents in that order. *)

Module File.
Record t : Type := mk {
  _id : nat;
  id : string;
  fileName : string;
  fileContent : string
}.
End File.

Module ApiKey.
Record t : Type := mk {
  _id : nat;
  key : string;
  id : string
}.
End ApiKey.

(** Errors raised by the storage layer: a [required] path is empty, or a
    [unique] index already holds the value. *)
Inductive storage_error : Type :=
| ValidationError
| DuplicateKey.

(** The filters the handlers pass to the File model. *)
Inductive file_filter : Type :=
| ByFileName (fileName : string)
| ByIdOrFileName (identifier : string)
| ByOid (oid : nat).

Definition file_matches (q : file_filter) (d : File.t) : bool :=
  match q with
  | ByFileName n => File.fileName d =? n
  | ByIdOrFileName i => (File.id d =? i) || (File.fileName d =? i)
  | ByOid o => Nat.eqb (File._id d) o
  end.

(** The filters the handlers pass to the ApiKey model. *)
Inductive key_filter : Type :=
| ByKey (key : string)
| ByKeyId (id : string).

Definition key_matches (q : key_filter) (k : ApiKey.t) : bool :=
  match q with
  | ByKey s => ApiKey.key k =? s
  | ByKeyId i => ApiKey.id k =? i
  end.

Section Collection.
Context {A : Type}.

(** [Model.findOne(q)]: the first stored document that matches. *)
Definition findOne (p : A -> bool) (c : list A) : option A := find p c.

(** [Model.findOneAndUpdate(q, u)]: the first match is replaced by its
    update, the others stay. *)
Fixpoint updateFirst (p : A -> bool) (u : A -> A) (c : list A) : list A :=
  match c with
  | [] => []
  | d :: r => if p d then u d :: r else d :: updateFirst p u r
  end.

(** [Model.findOneAndDelete(q)]: the first match is removed. *)
Fixpoint deleteFirst (p : A -> bool) (c : list A) : list A :=
  match c with
  | [] => []
  | d :: r => if p d then r else d :: deleteFirst p r
  end.

End Collection.

(** The update [{ fileContent }] applied to a document. *)
Definition with_content (fileContent : string) (d : File.t) : File.t :=
  File.mk (File._id d) (File.id d) (File.fileName d) fileContent.

(** [new File(d).save()]: every path of [fileSchema] is [required] (an empty
    string does not pass), and [id] is [unique]. *)
Definition File_save (d : File.t) (c : list File.t) : storage_error + list File.t :=
  if (File.id d =? EmptyString) || (File.fileName d =? EmptyString) || (File.fileContent d =? EmptyString)
  then inl ValidationError
  else if existsb (fun x => File.id x =? File.id d) c then inl DuplicateKey
  else inr (c ++ [d])%list.

(** [new ApiKey(k).save()]: [key] and [id] are [required] and [unique]. *)
Definition ApiKey_save (k : ApiKey.t) (c : list ApiKey.t) : storage_error + list ApiKey.t :=
  if (ApiKey.key k =? EmptyString) || (ApiKey.id k =? EmptyString)
  then inl ValidationError
  else if existsb (fun x => (ApiKey.key x =? ApiKey.key k) || (ApiKey.id x =? ApiKey.id k)) c
  then inl DuplicateKey
  else inr (c ++ [k])%list.

(** [File.find({}, 'id fileName')] and [ApiKey.find({}, 'key id')]: the
    projection keeps [_id] and the named paths. *)
Definition project_file (d : File.t) : json :=
  JObj [("_id", JOid (File._id d)); ("id", JStr (File.id d));
        ("fileName", JStr (File.fileName d))].

Definition project_key (k : ApiKey.t) : json :=
  JObj [("_id", JOid (ApiKey._id k)); ("key", JStr (ApiKey.key k));
        ("id", JStr (ApiKey.id k))].

(** ** Requests, responses, errors *)

(** The file part of a multipart request, as multer's memory storage keeps it;
    [text] is [buffer.toString('utf8')]. *)
Record uploaded : Type := {
  mimetype : string;
  text : string
}.

Record request : Type := {
  headers_apikey : option string;
  query_apiKey : option string;
  query_otp : option string;
  query_fileName : option string;
  query_overwrite : option string;
  body_fileName : option string;
  params : option string;
  file_part : option uploaded
}.

Record response : Type := {
  status : nat;
  body : json
}.

(** What is thrown or passed to [next]: [{ statusCode, message }], or an
    [Error] without a status code. *)
Record error : Type := {
  statusCode : option nat;
  message : string
}.

Definition http_error (code : nat) (msg : string) : error :=
  {| statusCode := Some code; message := msg |}.

(** [res.json(v)] and [res.status(c).json(v)]. *)
Definition res_json (v : json) : response := {| status := 200; body := v |}.
Definition res_status_json (c : nat) (v : json) : response := {| status := c; body := v |}.

Definition errorHandler (err : error) : response :=
  let statusCode :=
    match statusCode err with
    | Some c => if Nat.eqb c 0 then 500 else c
    | None => 500
    end in
  let message :=
    if message err =? EmptyString then "Internal Server Error" else message err in
  res_status_json statusCode (JObj [("error", JStr message)]).

(** ** The state of the process and the handler monad *)

Record state : Type := {
  files : list File.t;
  keys : list ApiKey.t;
  objectIds : nat;
  random_calls : nat;
  crypto_calls : nat
}.

Definition set_files (c : list File.t) (st : state) : state :=
  {| files := c; keys := keys st; objectIds := objectIds st;
     random_calls := random_calls st; crypto_calls := crypto_calls st |}.

Definition set_keys (c : list ApiKey.t) (st : state) : state :=
  {| files := files st; keys := c; objectIds := objectIds st;
     random_calls := random_calls st; crypto_calls := crypto_calls st |}.

Inductive outcome (A : Type) : Type :=
| Done (a : A)
| Raised (e : error).
Arguments Done {A} a.
Arguments Raised {A} e.

Definition M (A : Type) : Type := state -> outcome A * state.

Definition ret {A} (a : A) : M A := fun st => (Done a, st).
Definition throw {A} (e : error) : M A := fun st => (Raised e, st).
Definition bind {A B} (m : M A) (f : A -> M B) : M B :=
  fun st =>
    match m st with
    | (Done a, st') => f a st'
    | (Raised e, st') => (Raised e, st')
    end.
Definition gets {A} (f : state -> A) : M A := fun st => (Done (f st), st).
Definition modify (f : state -> state) : M unit := fun st => (Done tt, f st).

Notation "x <- m ;; k" := (bind m (fun x => k))
  (at level 61, m at next level, right associativity).
Notation "m ;;; k" := (bind m (fun _ => k))
  (at level 61, right associativity).

(** The response the client receives: the handler's, or [errorHandler]'s. *)
Definition respond (m : M response) (st : state) : response * state :=
  match m st with
  | (Done r, st') => (r, st')
  | (Raised e, st') => (errorHandler e, st')
  end.

(** A fresh [ObjectId] for [new Model(...)]. *)
Definition new_ObjectId : M nat :=
  fun st => (Done (objectIds st),
             {| files := files st; keys := keys st; objectIds := S (objectIds st);
                random_calls := random_calls st; crypto_calls := crypto_calls st |}).

(** ** External collaborators *)

(** What a call into a library does: it returns, or it throws an [Error]
    (which has a message and no [statusCode]). *)
Inductive library_result (A : Type) : Type :=
| Returns (a : A)
| Throws (message : string).
Arguments Returns {A} a.
Arguments Throws {A} message.

Class Platform : Type := {
  (** the value of the [k]-th call of [Math.random()] *)
  Math_random : nat -> Q;
  (** the buffer of the [k]-th call of [crypto.randomBytes(n)] *)
  randomBytes : nat -> nat -> list byte;
  (** [process.env.TOTP_SECRET] *)
  TOTP_SECRET : option string;
  (** [new OTPAuth.TOTP({ secret, digits, period }).validate({ token, timestamp })]:
      the delta of the matching counter, or [null]; or the error thrown *)
  TOTP_validate : option string -> nat -> nat -> string -> Z
                  -> library_result (option Z);
  (** the message of an error raised by Mongoose or the driver *)
  driver_message : storage_error -> string;
  (** [new Date(t).toISOString()] and [x.toFixed(d)] *)
  toISOString : Z -> string;
  toFixed : Q -> nat -> string
}.

Section Server.
Context {platform : Platform}.

(** ** Identifier generation *)

Definition characters : string :=
  "ABCDEFGHIJKLMNOPQRSTUVWXYZabcdefghijklmnopqrstuvwxyz".

(** The loop of [generateRandomId], reading the calls of [Math.random] from
    call number [call] on. *)
Fixpoint randomId_loop (length call : nat) : string :=
  match length with
  | O => EmptyString
  | S k =>
      Js.charAt characters
        (Js.floor_mul (Math_random call) (Z.of_nat (String.length characters)))
      ++ randomId_loop k (S call)
  end.

Definition generateRandomId (length : nat) : M string :=
  fun st =>
    (Done (randomId_loop length (random_calls st)),
     {| files := files st; keys := keys st; objectIds := objectIds st;
        random_calls := length + random_calls st; crypto_calls := crypto_calls st |}).

Definition generateFileId : M string := generateRandomId 5.

Definition hex_of_byte (b : byte) : string :=
  let n := Byte.to_N b in
  String (hex_digit (n / 16)) (String (hex_digit (n mod 16)) EmptyString).

Fixpoint hex_of_bytes (l : list byte) : string :=
  match l with
  | [] => EmptyString
  | b :: r => hex_of_byte b ++ hex_of_bytes r
  end.

Definition generateApiKey : M string :=
  fun st =>
    (Done (hex_of_bytes (randomBytes (crypto_calls st) 16)),
     {| files := files st; keys := keys st; objectIds := objectIds st;
        random_calls := random_calls st; crypto_calls := S (crypto_calls st) |}).

Definition generateApiKeyID : M string :=
  fun st =>
    let randomHex :=
      Js.toString16 (Z.to_N (Js.floor_mul (Math_random (random_calls st)) 16777215)) in
    (Done ("0x" ++ Js.padStart randomHex 6 "0"),
     {| files := files st; keys := keys st; objectIds := objectIds st;
        random_calls := S (random_calls st); crypto_calls := crypto_calls st |}).

(** ** Storage calls in the monad *)

Definition storage_failure {A} (e : storage_error) : M A :=
  throw {| statusCode := None; message := driver_message e |}.

Definition File_findOne (q : file_filter) : M (option File.t) :=
  gets (fun st => findOne (file_matches q) (files st)).

Definition File_insert (d : File.t) : M unit :=
  c <- gets files ;;
  match File_save d c with
  | inr c' => modify (set_files c')
  | inl e => storage_failure e
  end.

(** [File.findOneAndUpdate(q, { fileContent }, { new: true })]. *)
Definition File_findOneAndUpdate (q : file_filter) (fileContent : string)
  : M (option File.t) :=
  found <- File_findOne q ;;
  modify (fun st =>
            set_files (updateFirst (file_matches q) (with_content fileContent) (files st))
              st) ;;;
  ret (option_map (with_content fileContent) found).

Definition File_findOneAndDelete (q : file_filter) : M (option File.t) :=
  found <- File_findOne q ;;
  modify (fun st => set_files (deleteFirst (file_matches q) (files st)) st) ;;;
  ret found.

Definition File_find_id_fileName : M json :=
  gets (fun st => JArr (map project_file (files st))).

Definition ApiKey_findOne (q : key_filter) : M (option ApiKey.t) :=
  gets (fun st => findOne (key_matches q) (keys st)).

Definition ApiKey_insert (k : ApiKey.t) : M unit :=
  c <- gets keys ;;
  match ApiKey_save k c with
  | inr c' => modify (set_keys c')
  | inl e => storage_failure e
  end.

Definition ApiKey_findOneAndDelete (q : key_filter) : M (option ApiKey.t) :=
  found <- ApiKey_findOne q ;;
  modify (fun st => set_keys (deleteFirst (key_matches q) (keys st)) st) ;;;
  ret found.

Definition ApiKey_find_key_id : M json :=
  gets (fun st => JArr (map project_key (keys st))).

(** ** Middleware *)

Definition authenticate (req : request) : M unit :=
  let apiKey := Js.or (headers_apikey req) (query_apiKey req) in
  match Js.present apiKey with
  | None => throw (http_error 401 "API key is required")
  | Some apiKey =>
      key <- ApiKey_findOne (ByKey apiKey) ;;
      match key with
      | None => throw (http_error 401 "Invalid API key")
      | Some _ => ret tt
      end
  end.

Definition allowedMimeTypes : list string :=
  ["application/json"; "text/plain"; "application/xml"; "text/xml";
   "application/x-yaml"; "text/yaml"].

Definition includes (l : list string) (s : string) : bool :=
  existsb (fun x => x =? s) l.

(** [upload.single('file')] with [fileFilter]: the value of [req.file]. *)
Definition upload_single (req : request) : M (option uploaded) :=
  match file_part req with
  | None => ret None
  | Some f =>
      if includes allowedMimeTypes (mimetype f) then ret (Some f)
      else throw {| statusCode := None;
                    message := "Only JSON, TXT, XML, and YAML files are allowed" |}
  end.

(** ** The OTP library in the monad *)

(** [new OTPAuth.TOTP({ secret, digits: 6, period: 30 }).validate({ token,
    timestamp })]; an exception is left to the caller. *)
Definition totp_validate (totpSecret : option string) (token : string)
  (timestamp : Z) : M (option Z) :=
  fun st =>
    match TOTP_validate totpSecret 6 30 token timestamp with
    | Returns delta => (Done delta, st)
    | Throws m => (Raised {| statusCode := None; message := m |}, st)
    end.

(** ** Route handlers

    [now] is [Date.now()] and [uptime] is [process.uptime()] at the time of
    the request. *)

Definition error_body (msg : string) : json := JObj [("error", JStr msg)].
Definition message_body (msg : string) : json := JObj [("message", JStr msg)].

(** [GET /validate] *)
Definition validate (req : request) (now : Z) : M response :=
  let totpToken := query_otp req in
  match Js.present totpToken with
  | None =>
      ret (res_status_json 400 (error_body "OTP (One-Time Password) is required"))
  | Some totpToken =>
      let totpSecret := TOTP_SECRET in
      let timestamp := (now + 30000)%Z in
      isValidToken <- totp_validate totpSecret totpToken timestamp ;;
      ret (res_json (JObj [("isValid", JNum (if Js.truthy_num isValidToken then 1 else 0)%Z);
                           ("timestamp", JNum timestamp)]))
  end.

Definition health_status (uptime : Q) : string :=
  if Js.lt uptime (inject_Z 60) then "healthy" else "degraded".

(** [GET /health] *)
Definition health (now : Z) (uptime : Q) : M response :=
  let status := health_status uptime in
  ret (res_json (JObj [("timestamp", JNum now);
                       ("date", JStr (toISOString now));
                       ("status", JStr status);
                       ("uptime", JStr (toFixed uptime 2 ++ " seconds"))])).

(** [POST /create-key] *)
Definition create_key (req : request) (now : Z) : M response :=
  apiKeyId <- generateApiKeyID ;;
  apiKey <- generateApiKey ;;
  let totpToken := query_otp req in
  match Js.present totpToken with
  | None => throw (http_error 401 "OTP (One-Time Password) is required")
  | Some totpToken =>
      let totpSecret := TOTP_SECRET in
      let timestamp := (now + 30000)%Z in
      isValidToken <- totp_validate totpSecret totpToken timestamp ;;
      if negb (Js.truthy_num isValidToken) then
        throw (http_error 401 "Invalid OTP (One-Time Password)")
      else
        oid <- new_ObjectId ;;
        ApiKey_insert (ApiKey.mk oid apiKey apiKeyId) ;;;
        ret (res_json (JArr [JObj [("id", JStr apiKeyId); ("key", JStr apiKey);
                                   ("__v", JNum 0)]]))
  end.

(** [DELETE /delete-key/:id?] *)
Definition delete_key (req : request) : M response :=
  authenticate req ;;;
  match Js.present (params req) with
  | None => throw (http_error 400 "API Key ID is required")
  | Some id =>
      apiKey <- ApiKey_findOneAndDelete (ByKeyId id) ;;
      match apiKey with
      | None => throw (http_error 400 "Invalid API Key ID")
      | Some _ => ret (res_json (message_body "API key deleted successfully"))
      end
  end.

(** [GET /list-keys] *)
Definition list_keys (req : request) : M response :=
  authenticate req ;;;
  keys <- ApiKey_find_key_id ;;
  ret (res_json keys).

(** The body of the [POST /upload] handler, after the middleware. *)
Definition upload_handler (req : request) (file : option uploaded) : M response :=
  match file with
  | None => throw (http_error 400 "No file uploaded")
  | Some file =>
      fileName <-
        match Js.present (Js.or (query_fileName req) (body_fileName req)) with
        | Some n => ret n
        | None => generateRandomId 22
        end ;;
      let overwrite :=
        match query_overwrite req with
        | Some v => v =? "true"
        | None => false
        end in
      let fileContent := text file in
      fileId <- generateFileId ;;
      let fileQuery := ByFileName fileName in
      existingFile <- File_findOne fileQuery ;;
      match existingFile, overwrite with
      | Some _, false => throw (http_error 409 "File name already exists")
      | _, _ =>
          oid <- new_ObjectId ;;
          File_insert (File.mk oid fileId fileName fileContent) ;;;
          ret (res_json (JObj [("id", JStr fileId)]))
      end
  end.

(** [POST /upload] *)
Definition upload (req : request) : M response :=
  authenticate req ;;;
  file <- upload_single req ;;
  upload_handler req file.

(** [GET /raw/:identifier?] *)
Definition raw (req : request) : M response :=
  let identifier := params req in
  match Js.present identifier with
  | None => throw (http_error 400 "Identifier is required")
  | Some identifier =>
      file <- File_findOne (ByIdOrFileName identifier) ;;
      match file with
      | None => throw (http_error 404 "File not found")
      | Some file => ret (res_json (JStr (File.fileContent file)))
      end
  end.

(** [GET /list] *)
Definition list_files (req : request) : M response :=
  authenticate req ;;;
  files <- File_find_id_fileName ;;
  ret (res_json files).

(** The body of the [PUT /edit/:identifier?] handler, after the middleware. *)
Definition edit_handler (req : request) (file : option uploaded) : M response :=
  let identifier := params req in
  match Js.present identifier with
  | None => throw (http_error 400 "Identifier is required")
  | Some identifier =>
      match file with
      | None => throw (http_error 400 "File is required")
      | Some file =>
          let fileContent := text file in
          updated <- File_findOneAndUpdate (ByIdOrFileName identifier) fileContent ;;
          match updated with
          | None => throw (http_error 404 "File not found")
          | Some _ => ret (res_json (message_body "File updated successfully"))
          end
      end
  end.

(** [PUT /edit/:identifier?] *)
Definition edit (req : request) : M response :=
  authenticate req ;;;
  file <- upload_single req ;;
  edit_handler req file.

(** [DELETE /delete/:identifier?] *)
Definition delete (req : request) : M response :=
  authenticate req ;;;
  let identifier := params req in
  match Js.present identifier with
  | None => throw (http_error 400 "Identifier is required")
  | Some identifier =>
      file <- File_findOne (ByIdOrFileName identifier) ;;
      match file with
      | None => throw (http_error 404 "File not found")
      | Some file =>
          File_findOneAndDelete (ByOid (File._id file)) ;;;
          ret (res_json (message_body "File deleted successfully"))
      end
  end.

(** ** The application *)

Inductive route : Type :=
| GET_validate
| GET_health
| POST_create_key
| DELETE_delete_key
| GET_list_keys
| POST_upload
| GET_raw
| GET_list
| PUT_edit
| DELETE_delete.

Definition handler (r : route) (req : request) (now : Z) (uptime : Q) : M response :=
  match r with
  | GET_validate => validate req now
  | GET_health => health now uptime
  | POST_create_key => create_key req now
  | DELETE_delete_key => delete_key req
  | GET_list_keys => list_keys req
  | POST_upload => upload req
  | GET_raw => raw req
  | GET_list => list_files req
  | PUT_edit => edit req
  | DELETE_delete => delete req
  end.

(** One request served: the response sent and the state left behind. *)
Definition serve (r : route) (req : request) (now : Z) (uptime : Q) (st : state)
  : response * state :=
  respond (handler r req now uptime) st.

(** The text of the response body of [res.json(s)] for a string [s]. *)
Definition body_text (r : response) : option string :=
  match body r with
  | JStr s => Some (JSON_stringify_string s)
  | _ => None
  end.

End Server.

(** ** Notions used in the statements *)

(** The routes registered with the [authenticate] middleware. *)
Definition protected (r : route) : bool :=
  match r with
  | DELETE_delete_key | GET_list_keys | POST_upload | GET_list | PUT_edit
  | DELETE_delete => true
  | GET_validate | GET_health | POST_create_key | GET_raw => false
  end.

(** At most one stored document per name. *)
Definition names_unique (c : list File.t) : Prop :=
  NoDup (map File.fileName c).

(** The credential [authenticate] looks up, and the name and the overwrite
    flag the upload handler computes. *)
Definition credential (req : request) : option string :=
  Js.present (Js.or (headers_apikey req) (query_apiKey req)).

Definition explicit_name (req : request) : option string :=
  Js.present (Js.or (query_fileName req) (body_fileName req)).

Definition overwrite_flag (req : request) : bool :=
  match query_overwrite req with
  | Some v => v =? "true"
  | None => false
  end.

(** The first stored document whose [id] or [fileName] is the identifier. *)
Definition resolve (identifier : string) (c : list File.t) : option File.t :=
  findOne (file_matches (ByIdOrFileName identifier)) c.

Section UploadNotions.
Context {platform : Platform}.

(** The name under which an upload is stored: the explicit one, or 22 random
    letters. *)
Definition upload_name (req : request) (st : state) : string :=
  match explicit_name req with
  | Some n => n
  | None => randomId_loop 22 (random_calls st)
  end.

(** The number of calls of [Math.random] made before [generateFileId]. *)
Definition name_calls (req : request) : nat :=
  match explicit_name req with
  | Some _ => 0
  | None => 22
  end.

(** The id [generateFileId] returns during an upload. *)
Definition upload_id (req : request) (st : state) : string :=
  randomId_loop 5 (name_calls req + random_calls st).

(** The id and the key [POST /create-key] draws, and the state after the two
    draws. *)
Definition drawn_key_id (st : state) : string :=
  "0x" ++ Js.padStart
    (Js.toString16 (Z.to_N (Js.floor_mul (Math_random (random_calls st)) 16777215)))
    6 "0".

Definition drawn_key (st : state) : string :=
  hex_of_bytes (randomBytes (crypto_calls st) 16).

Definition after_key_draws (oid : nat) (c : list ApiKey.t) (st : state) : state :=
  {| files := files st; keys := c; objectIds := oid;
     random_calls := S (random_calls st); crypto_calls := S (crypto_calls st) |}.

(** A request as it arrives: the route, the request, [Date.now()] and
    [process.uptime()]. *)
Record arrival : Type := {
  arrival_route : route;
  arrival_request : request;
  arrival_now : Z;
  arrival_uptime : Q
}.

(** The state after serving the requests one after the other. *)
Fixpoint serve_all (l : list arrival) (st : state) : state :=
  match l with
  | [] => st
  | a :: r =>
      serve_all r
        (snd (serve (arrival_route a) (arrival_request a) (arrival_now a)
                (arrival_uptime a) st))
  end.

(** The arrival is not an upload asking for [overwrite=true]. *)
Definition without_overwrite (a : arrival) : Prop :=
  arrival_route a = POST_upload -> overwrite_flag (arrival_request a) = false.

(** A request that does not ask [DELETE /delete-key] for the key id [id]. *)
Definition spares_key_id (id : string) (a : arrival) : Prop :=
  arrival_route a = DELETE_delete_key ->
  Js.present (params (arrival_request a)) <> Some id.

End UploadNotions.

(** The contract of [Math.random]: a double in the interval [0, 1), hence at
    most the largest double below 1. *)
Definition random_in_unit_interval (p : Platform) : Prop :=
  forall k, (0 <= @Math_random p k)%Q /\ (@Math_random p k <= Js.below_one)%Q.

(** The status the comment next to [health] describes: degraded when the
    uptime is below 60 seconds. *)
Definition health_status_of_comment (uptime : Q) : string :=
  if Js.lt uptime (inject_Z 60) then "degraded" else "healthy".

(** ** Notions for the properties of the remaining code *)

Fixpoint string_forall (p : ascii -> bool) (s : string) : bool :=
  match s with
  | EmptyString => true
  | String c r => p c && string_forall p r
  end.

(** A letter of [A-Za-z]. *)
Definition is_letter (c : ascii) : bool :=
  let n := N_of_ascii c in
  (((65 <=? n) && (n <=? 90)) || ((97 <=? n) && (n <=? 122)))%N.

(** A digit of [0-9a-f]. *)
Definition is_hex_digit (c : ascii) : bool :=
  match hex_value c with
  | Some _ => true
  | None => false
  end.

(** The documents have pairwise distinct [id]s and pairwise distinct
    [_id]s, all below the next [ObjectId]. *)
Definition files_distinct (st : state) : Prop :=
  NoDup (map File.id (files st)) /\
  NoDup (map File._id (files st)) /\
  (forall d, In d (files st) -> File._id d < objectIds st).

(** The API keys have pairwise distinct [key]s, [id]s and [_id]s. *)
Definition keys_distinct (st : state) : Prop :=
  NoDup (map ApiKey.key (keys st)) /\
  NoDup (map ApiKey.id (keys st)) /\
  NoDup (map ApiKey._id (keys st)) /\
  (forall k, In k (keys st) -> ApiKey._id k < objectIds st).

(** What one request can do to the two collections. *)
Inductive effect (st st' : state) : Prop :=
| effect_none :
    files st' = files st -> keys st' = keys st ->
    objectIds st <= objectIds st' ->
    effect st st'
| effect_file_saved (d : File.t) :
    File_save d (files st) = inr (files st') -> File._id d = objectIds st ->
    keys st' = keys st -> objectIds st' = S (objectIds st) ->
    effect st st'
| effect_file_updated (identifier fileContent : string) :
    files st' = updateFirst (file_matches (ByIdOrFileName identifier))
                  (with_content fileContent) (files st) ->
    keys st' = keys st -> objectIds st' = objectIds st ->
    effect st st'
| effect_file_deleted (oid : nat) :
    files st' = deleteFirst (file_matches (ByOid oid)) (files st) ->
    keys st' = keys st -> objectIds st' = objectIds st ->
    effect st st'
| effect_key_saved (k : ApiKey.t) :
    ApiKey_save k (keys st) = inr (keys st') -> ApiKey._id k = objectIds st ->
    files st' = files st -> objectIds st' = S (objectIds st) ->
    effect st st'
| effect_key_deleted (id : string) :
    keys st' = deleteFirst (key_matches (ByKeyId id)) (keys st) ->
    files st' = files st -> objectIds st' = objectIds st ->
    effect st st'.

(** The status codes with which each route can fail: the ones its handler
    and [authenticate] set, and 500 on every route where an error without a
    [statusCode] can reach [errorHandler] (thrown by the OTP library or by
    the file filter, or passed to [next] from a query's [catch]).  The health
    route calls neither and cannot fail. *)
Definition route_failures (r : route) : list nat :=
  match r with
  | GET_validate => [400; 500]
  | GET_health => []
  | POST_create_key => [401; 500]
  | DELETE_delete_key => [401; 400; 500]
  | GET_list_keys => [401; 500]
  | POST_upload => [401; 500; 400; 409]
  | GET_raw => [400; 404; 500]
  | GET_list => [401; 500]
  | PUT_edit => [401; 500; 400; 404]
  | DELETE_delete => [401; 400; 404; 500]
  end.

(** The routes registered with [app.get]. *)
Definition is_GET (r : route) : bool :=
  match r with
  | GET_validate | GET_health | GET_list_keys | GET_raw | GET_list => true
  | POST_create_key | DELETE_delete_key | POST_upload | PUT_edit | DELETE_delete => false
  end.

(** A failure as the client sees it: one of the statuses, the body
    [{ error: message }] with a message that is not empty. *)
Definition failure (statuses : list nat) (r : response) : Prop :=
  In (status r) statuses /\
  exists m, body r = error_body m /\ m <> EmptyString.

(** ** A concrete platform and store *)

Module Sample.

(** The doubles [79 j / 4096] with [j = (7 k + 3) mod 52]: the [k]-th letter
    drawn is the [j]-th letter of the alphabet. *)
Definition random (k : nat) : Q :=
  Qmake (79 * Z.of_nat ((7 * k + 3) mod 52)) 4096.

(** A stand-in for the OTP library: a token of another length than [digits]
    is not found; comparing a token that has a character outside ASCII with a
    generated one throws; "492039" is the token of the previous period. *)
Definition totp (secret : option string) (digits period : nat) (token : string)
  (timestamp : Z) : library_result (option Z) :=
  if negb (Nat.eqb (String.length token) digits) then Returns None
  else if string_forall (fun c => (N_of_ascii c <? 128)%N) token then
    Returns (if token =? "492039" then Some (-1)%Z else None)
  else Throws "Input buffers must have the same byte length".

(** The six characters [12345é]. *)
Definition token_with_accent : string :=
  "12345" ++ String (ascii_of_nat 233) EmptyString.

#[export] Instance platform : Platform := {|
  Math_random := random;
  randomBytes := fun _ n => repeat x2a n;
  TOTP_SECRET := Some "JBSWY3DPEHPK3PXP";
  TOTP_validate := totp;
  driver_message := fun e =>
    match e with
    | ValidationError => "File validation failed"
    | DuplicateKey => "E11000 duplicate key error"
    end;
  toISOString := fun _ => "2023-06-01T00:00:00.000Z";
  toFixed := fun _ _ => "0.00"
|}.

Definition key0 : ApiKey.t :=
  ApiKey.mk 0 "000102030405060708090a0b0c0d0e0f" "0x00a1b2".

Definition notes : File.t := File.mk 1 "abcde" "notes" "hello".

Definition store : state :=
  {| files := [notes]; keys := [key0]; objectIds := 2;
     random_calls := 0; crypto_calls := 0 |}.

(** A store whose only document already has the id the sample platform
    generates first. *)
Definition clash_store : state :=
  {| files := [File.mk 1 "DKRYf" "notes" "hello"]; keys := [key0]; objectIds := 2;
     random_calls := 0; crypto_calls := 0 |}.

Definition text_plain (content : string) : uploaded :=
  {| mimetype := "text/plain"; text := content |}.

Definition no_request : request :=
  {| headers_apikey := None; query_apiKey := None; query_otp := None;
     query_fileName := None; query_overwrite := None; body_fileName := None;
     params := None; file_part := None |}.

(** A request carrying the key of [key0] in the [apikey] header. *)
Definition authorised : request :=
  {| headers_apikey := Some (ApiKey.key key0); query_apiKey := None;
     query_otp := None; query_fileName := None; query_overwrite := None;
     body_fileName := None; params := None; file_part := None |}.

Definition upload_request (fileName : string) (overwrite : option string)
  (content : string) : request :=
  {| headers_apikey := Some (ApiKey.key key0); query_apiKey := None;
     query_otp := None; query_fileName := Some fileName;
     query_overwrite := overwrite; body_fileName := None; params := None;
     file_part := Some {| mimetype := "text/plain"; text := content |} |}.

Definition identifier_request (identifier : string) (content : option string)
  : request :=
  {| headers_apikey := Some (ApiKey.key key0); query_apiKey := None;
     query_otp := None; query_fileName := None; query_overwrite := None;
     body_fileName := None; params := Some identifier;
     file_part := option_map (fun c => {| mimetype := "text/plain"; text := c |}) content |}.

Definition otp_request (otp : option string) : request :=
  {| headers_apikey := None; query_apiKey := None; query_otp := otp;
     query_fileName := None; query_overwrite := None; body_fileName := None;
     params := None; file_part := None |}.

End Sample.

(** ** Running the model on the sample store *)

Example sample_generateFileId :
  fst (@generateFileId Sample.platform Sample.store) = Done "DKRYf".
Proof. reflexivity. Qed.

Example sample_upload :
  @serve Sample.platform POST_upload (Sample.upload_request "todo" None "milk")
    0%Z 0%Q Sample.store
  = (res_json (JObj [("id", JStr "DKRYf")]),
     {| files := [Sample.notes; File.mk 2 "DKRYf" "todo" "milk"];
        keys := [Sample.key0]; objectIds := 3; random_calls := 5; crypto_calls := 0 |}).
Proof. reflexivity. Qed.

Example sample_edit :
  @serve Sample.platform PUT_edit (Sample.identifier_request "abcde" (Some "world"))
    0%Z 0%Q Sample.store
  = (res_json (message_body "File updated successfully"),
     set_files [File.mk 1 "abcde" "notes" "world"] Sample.store).
Proof. reflexivity. Qed.

Example sample_delete :
  @serve Sample.platform DELETE_delete (Sample.identifier_request "notes" None)
    0%Z 0%Q Sample.store
  = (res_json (message_body "File deleted successfully"), set_files [] Sample.store).
Proof. reflexivity. Qed.

Example sample_raw_missing :
  @serve Sample.platform GET_raw (Sample.identifier_request "nothing" None)
    0%Z 0%Q Sample.store
  = (res_status_json 404 (error_body "File not found"), Sample.store).
Proof. reflexivity. Qed.

(** The product is rounded to a double before [Math.floor]: the draw
    [866076851417403 / 2^52] times 52 lies below 10 and rounds to 10. *)
Example floor_mul_rounds_the_product :
  Js.floor_mul (866076851417403 # 4503599627370496) 52 = 10%Z /\
  Qfloor ((866076851417403 # 4503599627370496) * inject_Z 52) = 9%Z /\
  Js.charAt characters 10 = "K".
Proof. split; [|split]; vm_compute; reflexivity. Qed.

(** The double nearest to one tenth. *)
Example round_double_one_tenth :
  Qeq_bool (Js.round_double (1 # 10)) (3602879701896397 # 36028797018963968) = true.
Proof. vm_compute. reflexivity. Qed.

(** The largest draw: [(1 - 2^-53) * 52] rounds to a double below 52, and
    [(1 - 2^-53) * 0xffffff] to one below [0xffffff]. *)
Example floor_mul_largest_draw :
  Js.floor_mul Js.below_one 52 = 51%Z /\
  Js.floor_mul Js.below_one 16777215 = 16777214%Z.
Proof. split; vm_compute; reflexivity. Qed.

Example sample_create_key :
  snd (@serve Sample.platform POST_create_key (Sample.otp_request (Some "492039"))
         0%Z 0%Q Sample.store)
  = {| files := [Sample.notes];
       keys := [Sample.key0;
                ApiKey.mk 2 "2a2a2a2a2a2a2a2a2a2a2a2a2a2a2a2a" "0x0ecfff"];
       objectIds := 3; random_calls := 1; crypto_calls := 1 |}.
Proof. vm_compute. reflexivity. Qed.

(** * Properties *)

(** ** Lists and JavaScript values *)

Lemma present_Some (v : option string) (s : string) :
  Js.present v = Some s <-> v = Some s /\ s <> EmptyString.
Proof.
  unfold Js.present, Js.truthy.
  destruct v as [t|]; [|split; [intros E; discriminate E | intros [E _]; discriminate E]].
  destruct (String.eqb_spec t EmptyString) as [E|E]; simpl; split.
  - intros H. discriminate H.
  - intros [H1 H2]. injection H1 as <-. contradiction.
  - intros H. injection H as <-. auto.
  - intros [H _]. exact H.
Qed.

Lemma present_None (v : option string) :
  Js.present v = None <-> v = None \/ v = Some EmptyString.
Proof.
  unfold Js.present, Js.truthy.
  destruct v as [t|]; [|split; auto].
  destruct (String.eqb_spec t EmptyString) as [E|E]; simpl; split.
  - intros _. right. now rewrite E.
  - reflexivity.
  - intros H. discriminate H.
  - intros [H|H]; [discriminate H|]. injection H as H. contradiction.
Qed.

Lemma findOne_none {A} (p : A -> bool) (c : list A) :
  findOne p c = None <-> (forall x, In x c -> p x = false).
Proof.
  unfold findOne. split.
  - intros H x Hx. exact (find_none p c H x Hx).
  - induction c as [|d r IH]; simpl; intros H; [reflexivity|].
    rewrite (H d (or_introl eq_refl)). apply IH. intros x Hx. apply H. now right.
Qed.

(** The first match splits the collection. *)
Lemma findOne_split {A} (p : A -> bool) (c : list A) (d : A) :
  findOne p c = Some d ->
  exists before after,
    c = (before ++ d :: after)%list /\ p d = true /\
    (forall x, In x before -> p x = false).
Proof.
  unfold findOne. induction c as [|a r IH]; simpl; [discriminate|].
  destruct (p a) eqn:Pa.
  - intros H. injection H as <-. exists [], r. simpl. repeat split; auto.
    intros x [].
  - intros H. destruct (IH H) as (b & t & -> & Pd & Hb).
    exists (a :: b), t. simpl. repeat split; auto.
    intros x [<-|Hx]; auto.
Qed.

Lemma findOne_first {A} (p : A -> bool) (before after : list A) (d : A) :
  (forall x, In x before -> p x = false) -> p d = true ->
  findOne p (before ++ d :: after)%list = Some d.
Proof.
  unfold findOne. induction before as [|a b IH]; simpl; intros Hb Pd.
  - now rewrite Pd.
  - rewrite (Hb a (or_introl eq_refl)). apply IH; auto.
Qed.

Lemma updateFirst_none {A} (p : A -> bool) (u : A -> A) (c : list A) :
  (forall x, In x c -> p x = false) -> updateFirst p u c = c.
Proof.
  induction c as [|a r IH]; simpl; intros H; [reflexivity|].
  rewrite (H a (or_introl eq_refl)). f_equal. apply IH. intros x Hx. apply H. now right.
Qed.

Lemma updateFirst_split {A} (p : A -> bool) (u : A -> A) (before after : list A) (d : A) :
  (forall x, In x before -> p x = false) -> p d = true ->
  updateFirst p u (before ++ d :: after)%list = (before ++ u d :: after)%list.
Proof.
  induction before as [|a b IH]; simpl; intros Hb Pd.
  - now rewrite Pd.
  - rewrite (Hb a (or_introl eq_refl)). f_equal. apply IH; auto.
Qed.

Lemma deleteFirst_split {A} (p : A -> bool) (before after : list A) (d : A) :
  (forall x, In x before -> p x = false) -> p d = true ->
  deleteFirst p (before ++ d :: after)%list = (before ++ after)%list.
Proof.
  induction before as [|a b IH]; simpl; intros Hb Pd.
  - now rewrite Pd.
  - rewrite (Hb a (or_introl eq_refl)). f_equal. apply IH; auto.
Qed.

Lemma set_files_same (st : state) : set_files (files st) st = st.
Proof. now destruct st. Qed.

Lemma set_keys_same (st : state) : set_keys (keys st) st = st.
Proof. now destruct st. Qed.

(** ** Rounding to a double *)

Lemma pow2_pos (z : Z) : (0 < Js.pow2 z)%Q.
Proof.
  destruct z as [|p|p]; unfold Js.pow2.
  - reflexivity.
  - change 0%Q with (inject_Z 0). rewrite <- Zlt_Qlt. apply Z.pow_pos_nonneg; lia.
  - reflexivity.
Qed.

Lemma pow2_le (a b : Z) : (a <= b)%Z -> (Js.pow2 a <= Js.pow2 b)%Q.
Proof.
  intros H. destruct a as [|p|p], b as [|q|q]; unfold Js.pow2; try lia.
  - apply Qle_refl.
  - rewrite <- Zle_Qle. apply Z.pow_le_mono_r; lia.
  - rewrite <- Zle_Qle. apply Z.pow_le_mono_r; lia.
  - unfold Qle. simpl. lia.
  - unfold Qle. cbn [Qnum Qden inject_Z].
    assert (0 < 2 ^ Z.pos q)%Z by (apply Z.pow_pos_nonneg; lia). lia.
  - unfold Qle. cbn [Qnum Qden].
    rewrite !Pos2Z.inj_pow.
    assert (2 ^ Z.pos q <= 2 ^ Z.pos p)%Z by (apply Z.pow_le_mono_r; lia). lia.
Qed.

(** Rounding to an integer moves up by at most one half. *)
Lemma round_half_even_upper (x : Q) :
  (inject_Z (Js.round_half_even x) <= x + (1 # 2))%Q.
Proof.
  unfold Js.round_half_even.
  pose proof (Qfloor_le x) as F.
  assert (U : (inject_Z (Qfloor x + 1) == inject_Z (Qfloor x) + 1)%Q).
  { rewrite inject_Z_plus. reflexivity. }
  destruct (Qcompare_spec (x - inject_Z (Qfloor x)) (1 # 2)) as [E|L|G].
  - destruct (Z.even (Qfloor x)); [lra|]. rewrite U. lra.
  - lra.
  - rewrite U. lra.
Qed.

Lemma round_half_even_nonneg (x : Q) : (0 <= x)%Q -> (0 <= Js.round_half_even x)%Z.
Proof.
  intros H. unfold Js.round_half_even.
  assert (F : (0 <= Qfloor x)%Z).
  { change 0%Z with (Qfloor 0). now apply Qfloor_resp_le. }
  destruct (Qcompare _ _); [destruct (Z.even _)| |]; lia.
Qed.

Lemma binade_upper (q : Q) (p : Z) :
  (0 <= p)%Z -> (0 < q)%Q -> (q < Js.pow2 p)%Q -> (Js.binade q <= p - 1)%Z.
Proof.
  intros Hp Hq Hlt. unfold Js.binade.
  set (g := (Z.log2 (Qnum q) - Z.log2 (Z.pos (Qden q)))%Z).
  destruct (Qle_bool (Js.pow2 g) q) eqn:B.
  - apply Qle_bool_iff in B.
    destruct (Z_le_gt_dec p g) as [L|L]; [|lia].
    exfalso. apply (Qlt_irrefl q).
    apply Qlt_le_trans with (Js.pow2 p); [exact Hlt|].
    apply Qle_trans with (Js.pow2 g); [now apply pow2_le|exact B].
  - destruct (Z_le_gt_dec g p) as [L|L]; [lia|]. exfalso.
    destruct q as [n d]. cbn [Qnum Qden] in *.
    assert (Np : (0 < n)%Z) by (unfold Qlt in Hq; simpl in Hq; lia).
    destruct (Z.log2_spec n Np) as [N1 _].
    destruct (Z.log2_spec (Z.pos d) eq_refl) as [_ D2].
    assert (L2 : (0 <= Z.log2 (Z.pos d))%Z) by apply Z.log2_nonneg.
    assert (P : (2 ^ (Z.log2 (Z.pos d) + 1 + p) <= 2 ^ Z.log2 n)%Z).
    { apply Z.pow_le_mono_r; lia. }
    rewrite Z.pow_add_r in P by lia.
    replace (Z.succ (Z.log2 (Z.pos d))) with (Z.log2 (Z.pos d) + 1)%Z in D2 by lia.
    assert (Pp : (0 < 2 ^ p)%Z) by (apply Z.pow_pos_nonneg; lia).
    destruct p as [|p|p]; [| |lia]; unfold Js.pow2, Qlt in Hlt;
      cbn [Qnum Qden inject_Z] in Hlt; nia.
Qed.

(** Rounding a positive number below [2 ^ p] to a double moves it up by at
    most half a unit in the last place, [2 ^ (p - 54)]. *)
Lemma round_positive_upper (q : Q) (p : Z) :
  (0 <= p)%Z -> (0 < q)%Q -> (q < Js.pow2 p)%Q ->
  (Js.round_positive q <= q + Js.pow2 (p - 53) * (1 # 2))%Q.
Proof.
  intros Hp Hq Hlt. unfold Js.round_positive.
  set (e := Z.max (Js.binade q - 52) (-1074)).
  assert (E : (e <= p - 53)%Z).
  { pose proof (binade_upper q p Hp Hq Hlt). unfold e. lia. }
  pose proof (pow2_pos e) as Pe.
  pose proof (pow2_le e (p - 53) E) as Le.
  assert (Ne : ~ (Js.pow2 e == 0)%Q) by (intros Z; rewrite Z in Pe; discriminate Pe).
  assert (D : (q / Js.pow2 e * Js.pow2 e == q)%Q).
  { rewrite Qmult_comm. now apply Qmult_div_r. }
  apply Qle_trans with ((q / Js.pow2 e + (1 # 2)) * Js.pow2 e)%Q.
  - apply Qmult_le_compat_r; [apply round_half_even_upper|now apply Qlt_le_weak].
  - rewrite Qmult_plus_distr_l, D. lra.
Qed.

Lemma round_positive_nonneg (q : Q) : (0 < q)%Q -> (0 <= Js.round_positive q)%Q.
Proof.
  intros Hq. unfold Js.round_positive.
  set (e := Z.max (Js.binade q - 52) (-1074)).
  pose proof (pow2_pos e) as Pe.
  apply Qmult_le_0_compat; [|now apply Qlt_le_weak].
  change 0%Q with (inject_Z 0). rewrite <- Zle_Qle.
  apply round_half_even_nonneg.
  apply Qle_shift_div_l; [exact Pe|]. rewrite Qmult_0_l. now apply Qlt_le_weak.
Qed.

(** [Math.floor(r * k)] for a double [r] of [0, 1) and an integer [k] with
    [2 ^ (p - 1) < k <= 2 ^ p]: the rounded product stays below [k]. *)
Lemma floor_mul_double_bounds (r : Q) (k p : Z) :
  (0 < k)%Z -> (0 <= p)%Z ->
  (inject_Z k <= Js.pow2 p)%Q ->
  (Js.pow2 (p - 53) * (1 # 2) < inject_Z k * (1 # 9007199254740992))%Q ->
  (0 <= r)%Q -> (r <= Js.below_one)%Q ->
  (0 <= Js.floor_mul r k < k)%Z.
Proof.
  intros Hk Hp Kp Gap R0 R1. unfold Js.floor_mul, Js.round_double.
  set (q := (r * inject_Z k)%Q).
  assert (K0 : (0 < inject_Z k)%Q) by (unfold Qlt; simpl; lia).
  assert (Q0 : (0 <= q)%Q).
  { apply Qmult_le_0_compat; [exact R0|now apply Qlt_le_weak]. }
  assert (Q1 : (q <= inject_Z k - inject_Z k * (1 # 9007199254740992))%Q).
  { unfold q. apply Qle_trans with (Js.below_one * inject_Z k)%Q.
    - apply Qmult_le_compat_r; [exact R1|now apply Qlt_le_weak].
    - unfold Js.below_one. apply Qle_lteq. right. field. }
  pose proof (pow2_pos (p - 53)) as P53.
  destruct (Qnum q) as [|n|n] eqn:N.
  - change (Qfloor 0) with 0%Z. clear -Hk. lia.
  - assert (Qp : (0 < q)%Q) by (unfold Qlt; rewrite N; reflexivity).
    assert (Lt : (q < Js.pow2 p)%Q) by lra.
    split.
    + change 0%Z with (Qfloor 0). apply Qfloor_resp_le. now apply round_positive_nonneg.
    + rewrite Zlt_Qlt. eapply Qle_lt_trans; [apply Qfloor_le|].
      pose proof (round_positive_upper q p Hp Qp Lt). lra.
  - exfalso. unfold Qle in Q0. rewrite N in Q0. simpl in Q0. lia.
Qed.

Section Properties.
Context {platform : Platform}.

(** ** The authentication gate *)

Lemma authenticate_run (req : request) (st : state) :
  authenticate req st =
  match credential req with
  | None => (Raised (http_error 401 "API key is required"), st)
  | Some k =>
      match findOne (key_matches (ByKey k)) (keys st) with
      | None => (Raised (http_error 401 "Invalid API key"), st)
      | Some _ => (Done tt, st)
      end
  end.
Proof.
  unfold authenticate, credential.
  destruct (Js.present _) as [k|]; [|reflexivity].
  unfold bind, ApiKey_findOne, gets.
  now destruct (findOne _ _).
Qed.

(** A request rejected by the gate is answered by [errorHandler], and the
    handler behind the gate does not run. *)
Lemma protected_rejected (r : route) (req : request) (now : Z) (uptime : Q)
  (st : state) (e : error) :
  protected r = true ->
  authenticate req st = (Raised e, st) ->
  serve r req now uptime st = (errorHandler e, st).
Proof.
  intros Hr Ha.
  destruct r; try discriminate Hr;
    unfold serve, respond, handler, delete_key, list_keys, upload, list_files,
      edit, delete, bind; now rewrite Ha.
Qed.

(** C6.  On every route behind [authenticate]: the credential looked up is the
    header's whenever the header carries one, whatever the query says; with no
    credential the response is 401 "API key is required"; with a credential
    that is the key of no stored API key it is 401 "Invalid API key"; in both
    cases the whole state, documents and keys included, is left as it was; and
    a credential that is the key of a stored API key passes the gate. *)
Theorem C6_authentication_gate (r : route) (req : request) (now : Z) (uptime : Q)
  (st : state) :
  protected r = true ->
  (forall h, Js.present (headers_apikey req) = Some h -> credential req = Some h) /\
  (credential req = None ->
   serve r req now uptime st
   = (res_status_json 401 (error_body "API key is required"), st)) /\
  (forall k, credential req = Some k ->
     (forall x, In x (keys st) -> ApiKey.key x <> k) ->
     serve r req now uptime st
     = (res_status_json 401 (error_body "Invalid API key"), st)) /\
  (forall k x, credential req = Some k -> In x (keys st) -> ApiKey.key x = k ->
     authenticate req st = (Done tt, st)).
Proof.
  intros Hr. repeat split.
  - intros h Hh. unfold credential, Js.or.
    unfold Js.present in Hh.
    destruct (Js.truthy (headers_apikey req)) eqn:T; [|discriminate Hh].
    unfold Js.present. now rewrite T.
  - intros Hc.
    rewrite (protected_rejected r req now uptime st
               (http_error 401 "API key is required") Hr); [reflexivity|].
    rewrite authenticate_run, Hc. reflexivity.
  - intros k Hc Hk.
    rewrite (protected_rejected r req now uptime st
               (http_error 401 "Invalid API key") Hr); [reflexivity|].
    rewrite authenticate_run, Hc.
    assert (N : findOne (key_matches (ByKey k)) (keys st) = None).
    { apply findOne_none. intros x Hx. simpl.
      destruct (String.eqb_spec (ApiKey.key x) k) as [E|E]; [|reflexivity].
      now elim (Hk x Hx). }
    now rewrite N.
  - intros k x Hc Hx Ek. rewrite authenticate_run, Hc.
    destruct (findOne _ _) eqn:F; [reflexivity|].
    apply findOne_none with (x := x) in F; [|exact Hx].
    simpl in F. rewrite Ek, String.eqb_refl in F. discriminate.
Qed.

(** ** Upload *)

(** What one run of the upload handler does, in closed form. *)
Lemma upload_handler_run (req : request) (file : uploaded) (st : state) :
  respond (upload_handler req (Some file)) st =
  let n := upload_name req st in
  let i := upload_id req st in
  let calls := 5 + (name_calls req + random_calls st) in
  match findOne (file_matches (ByFileName n)) (files st), overwrite_flag req with
  | Some _, false =>
      (res_status_json 409 (error_body "File name already exists"),
       {| files := files st; keys := keys st; objectIds := objectIds st;
          random_calls := calls; crypto_calls := crypto_calls st |})
  | _, _ =>
      match File_save (File.mk (objectIds st) i n (text file)) (files st) with
      | inr c =>
          (res_json (JObj [("id", JStr i)]),
           {| files := c; keys := keys st; objectIds := S (objectIds st);
              random_calls := calls; crypto_calls := crypto_calls st |})
      | inl e =>
          (errorHandler {| statusCode := None; message := driver_message e |},
           {| files := files st; keys := keys st; objectIds := S (objectIds st);
              random_calls := calls; crypto_calls := crypto_calls st |})
      end
  end.
Proof.
  unfold upload_handler, upload_name, upload_id, name_calls, overwrite_flag,
    explicit_name, respond.
  destruct (Js.present (Js.or (query_fileName req) (body_fileName req))) as [n|];
    unfold bind, ret, generateFileId, generateRandomId, File_findOne, gets;
    cbn [files keys objectIds random_calls crypto_calls];
    (destruct (findOne _ (files st)) as [d|];
     [destruct (match query_overwrite req with Some v => v =? "true" | None => false end)|]);
    unfold throw, new_ObjectId, File_insert, bind, gets, modify, storage_failure, throw,
      set_files, ret;
    cbn [files keys objectIds random_calls crypto_calls];
    try reflexivity;
    destruct (File_save _ _); reflexivity.
Qed.

(** C3.  An upload with [overwrite] not ['true'], under a name some stored
    document already carries, is answered 409 "File name already exists";
    the files collection (hence the existing document's id, fileName and
    fileContent) and the keys collection are as before, no record is added. *)
Theorem C3_upload_conflict (req : request) (file : uploaded) (st : state)
  (d : File.t) :
  overwrite_flag req = false ->
  In d (files st) ->
  File.fileName d = upload_name req st ->
  exists st',
    respond (upload_handler req (Some file)) st
    = (res_status_json 409 (error_body "File name already exists"), st') /\
    files st' = files st /\ keys st' = keys st.
Proof.
  intros Ho Hd Hn. rewrite upload_handler_run. cbv zeta. rewrite Ho.
  destruct (findOne _ (files st)) as [x|] eqn:F.
  - eexists. split; [reflexivity|]. split; reflexivity.
  - apply findOne_none with (x := d) in F; [|exact Hd].
    simpl in F. rewrite Hn, String.eqb_refl in F. discriminate F.
Qed.

(** The conflict at the level of the route: an authorised request with an
    accepted file part. *)
Lemma upload_route (req : request) (file : uploaded) (now : Z) (uptime : Q)
  (st : state) :
  authenticate req st = (Done tt, st) ->
  file_part req = Some file ->
  includes allowedMimeTypes (mimetype file) = true ->
  serve POST_upload req now uptime st = respond (upload_handler req (Some file)) st.
Proof.
  intros Ha Hf Hm.
  unfold serve, handler, upload, respond, bind. rewrite Ha.
  unfold upload_single. rewrite Hf, Hm. reflexivity.
Qed.

Lemma characters_get (m : nat) :
  m < 52 -> exists c, String.get m characters = Some c.
Proof.
  intros H. unfold characters.
  do 52 (destruct m as [|m]; [eexists; reflexivity|]). lia.
Qed.

Lemma floor_mul_range (r : Q) :
  (0 <= r)%Q -> (r <= Js.below_one)%Q -> (0 <= Js.floor_mul r 52 < 52)%Z.
Proof.
  intros R0 R1. apply (floor_mul_double_bounds r 52 6); try assumption; try lia.
  - unfold Qle; simpl; lia.
  - unfold Qlt; simpl; lia.
Qed.

Lemma charAt_characters_length (k : Z) :
  (0 <= k < 52)%Z -> String.length (Js.charAt characters k) = 1.
Proof.
  intros K. unfold Js.charAt.
  destruct (characters_get (Z.to_nat k)) as [c Hc]; [lia|].
  destruct k as [|p|p]; [| |lia]; now rewrite Hc.
Qed.

Lemma length_append (a b : string) :
  String.length (a ++ b) = String.length a + String.length b.
Proof.
  induction a as [|c a IH]; simpl; [reflexivity|]. now rewrite IH.
Qed.

(** With [Math.random] in its range, [generateRandomId(n)] has [n] characters. *)
Lemma randomId_loop_length (n call : nat) :
  random_in_unit_interval platform ->
  String.length (randomId_loop n call) = n.
Proof.
  intros R. revert call. induction n as [|n IH]; intros call; [reflexivity|].
  cbn [randomId_loop]. rewrite length_append, IH.
  destruct (R call) as [R0 R1].
  change (Z.of_nat (String.length characters)) with 52%Z.
  now rewrite charAt_characters_length by (apply floor_mul_range; assumption).
Qed.

Lemma nonempty_of_length (s : string) (n : nat) :
  String.length s = S n -> s <> EmptyString.
Proof. intros H E. rewrite E in H. discriminate H. Qed.

Lemma upload_id_length (req : request) (st : state) :
  random_in_unit_interval platform -> String.length (upload_id req st) = 5.
Proof. intros R. now apply randomId_loop_length. Qed.

Lemma upload_name_nonempty (req : request) (st : state) :
  random_in_unit_interval platform -> upload_name req st <> EmptyString.
Proof.
  intros R. unfold upload_name. destruct (explicit_name req) as [n|] eqn:E.
  - apply present_Some in E. tauto.
  - apply nonempty_of_length with (n := 21). now apply randomId_loop_length.
Qed.

Lemma eqb_empty_false (s : string) : s <> EmptyString -> (s =? EmptyString) = false.
Proof. intros H. now destruct (String.eqb_spec s EmptyString). Qed.

(** [save] stores a record whose paths are non-empty and whose [id] is new,
    at the end of the collection. *)
Lemma File_save_accepts (d : File.t) (c : list File.t) :
  File.id d <> EmptyString -> File.fileName d <> EmptyString ->
  File.fileContent d <> EmptyString ->
  (forall x, In x c -> File.id x <> File.id d) ->
  File_save d c = inr (c ++ [d])%list.
Proof.
  intros Hi Hn Hc Hu. unfold File_save.
  rewrite !eqb_empty_false by assumption. simpl.
  assert (E : existsb (fun x => File.id x =? File.id d) c = false).
  { apply not_true_is_false. intros H. apply existsb_exists in H as (x & Hx & Ex).
    apply String.eqb_eq in Ex. now apply (Hu x Hx). }
  now rewrite E.
Qed.

(** [save] either appends the record or leaves the collection alone. *)
Lemma File_save_cases (d : File.t) (c : list File.t) :
  File_save d c = inr (c ++ [d])%list \/ exists e, File_save d c = inl e.
Proof.
  unfold File_save.
  destruct (_ || _); [right; eauto|].
  destruct (existsb _ _); [right; eauto|]. now left.
Qed.

Lemma File_save_rejects (d : File.t) (c : list File.t) :
  File.fileContent d = EmptyString \/ (exists x, In x c /\ File.id x = File.id d) ->
  exists e, File_save d c = inl e.
Proof.
  intros H. unfold File_save.
  destruct (_ || _) eqn:V; [eauto|].
  destruct (existsb _ _) eqn:U; [eauto|]. exfalso.
  destruct H as [H|(x & Hx & Ex)].
  - rewrite H in V. simpl in V. now rewrite orb_true_r in V.
  - assert (T : existsb (fun y => File.id y =? File.id d) c = true).
    { apply existsb_exists. exists x. split; [exact Hx|]. now apply String.eqb_eq. }
    rewrite T in U. discriminate U.
Qed.

(** The accepted case of an upload over a stored name: the response and the
    collection afterwards. *)
Lemma overwrite_upload_run (req : request) (file : uploaded) (st : state) (d : File.t) :
  random_in_unit_interval platform ->
  overwrite_flag req = true ->
  In d (files st) ->
  File.fileName d = upload_name req st ->
  respond (upload_handler req (Some file)) st
  = match File_save (File.mk (objectIds st) (upload_id req st) (upload_name req st)
                       (text file)) (files st) with
    | inr c =>
        (res_json (JObj [("id", JStr (upload_id req st))]),
         {| files := c; keys := keys st; objectIds := S (objectIds st);
            random_calls := 5 + (name_calls req + random_calls st);
            crypto_calls := crypto_calls st |})
    | inl e =>
        (errorHandler {| statusCode := None; message := driver_message e |},
         {| files := files st; keys := keys st; objectIds := S (objectIds st);
            random_calls := 5 + (name_calls req + random_calls st);
            crypto_calls := crypto_calls st |})
    end /\
  (text file <> EmptyString ->
   (forall x, In x (files st) -> File.id x <> upload_id req st) ->
   files (snd (respond (upload_handler req (Some file)) st))
   = (files st ++ [File.mk (objectIds st) (upload_id req st) (upload_name req st)
                     (text file)])%list).
Proof.
  intros R Ho Hd Hn.
  assert (Run : respond (upload_handler req (Some file)) st
  = match File_save (File.mk (objectIds st) (upload_id req st) (upload_name req st)
                       (text file)) (files st) with
    | inr c =>
        (res_json (JObj [("id", JStr (upload_id req st))]),
         {| files := c; keys := keys st; objectIds := S (objectIds st);
            random_calls := 5 + (name_calls req + random_calls st);
            crypto_calls := crypto_calls st |})
    | inl e =>
        (errorHandler {| statusCode := None; message := driver_message e |},
         {| files := files st; keys := keys st; objectIds := S (objectIds st);
            random_calls := 5 + (name_calls req + random_calls st);
            crypto_calls := crypto_calls st |})
    end).
  { rewrite upload_handler_run. cbv zeta. rewrite Ho.
    now destruct (findOne _ (files st)). }
  split; [exact Run|].
  intros Hc Hu. rewrite Run.
  rewrite File_save_accepts; [reflexivity| | | |]; simpl.
  - apply nonempty_of_length with (n := 4). now apply upload_id_length.
  - now apply upload_name_nonempty.
  - exact Hc.
  - exact Hu.
Qed.

(** C2 (amended).  An upload with [overwrite=true] under a name a stored
    document already carries never removes or changes a stored record: the
    collection afterwards starts with the collection before.  The id it
    generates has 5 characters.  When the content is not empty and no stored
    document has the generated id, the response is [{id}] with that id and
    exactly one record is appended, carrying the generated id, the name and
    the content.  Otherwise the storage layer refuses the insert: the response
    has status 500 and the collection is as before. *)
Theorem C2_overwrite_appends_record (req : request) (file : uploaded)
  (st : state) (d : File.t) :
  random_in_unit_interval platform ->
  overwrite_flag req = true ->
  In d (files st) ->
  File.fileName d = upload_name req st ->
  let i := upload_id req st in
  let inserted := File.mk (objectIds st) i (upload_name req st) (text file) in
  let result := respond (upload_handler req (Some file)) st in
  String.length i = 5 /\
  (exists added, files (snd result) = (files st ++ added)%list) /\
  keys (snd result) = keys st /\
  (text file <> EmptyString ->
   (forall x, In x (files st) -> File.id x <> i) ->
   fst result = res_json (JObj [("id", JStr i)]) /\
   files (snd result) = (files st ++ [inserted])%list) /\
  (text file = EmptyString \/ (exists x, In x (files st) /\ File.id x = i) ->
   status (fst result) = 500 /\ files (snd result) = files st).
Proof.
  intros R Ho Hd Hn i inserted result.
  assert (Li : String.length i = 5) by now apply upload_id_length.
  destruct (overwrite_upload_run req file st d R Ho Hd Hn) as [Run Acc].
  fold i in Run, Acc. fold inserted in Run, Acc. fold result in Run, Acc.
  split; [exact Li|]. split; [|split; [|split]].
  - rewrite Run. destruct (File_save_cases inserted (files st)) as [E|[e E]]; rewrite E.
    + now exists [inserted].
    + exists []. simpl. now rewrite app_nil_r.
  - rewrite Run. now destruct (File_save inserted (files st)).
  - intros Hc Hu. split; [|now apply Acc].
    rewrite Run.
    rewrite File_save_accepts; [reflexivity| | | |]; simpl.
    + apply nonempty_of_length with (n := 4). exact Li.
    + now apply upload_name_nonempty.
    + exact Hc.
    + exact Hu.
  - intros H. rewrite Run.
    destruct (File_save_rejects inserted (files st) H) as [e E]. rewrite E.
    split; reflexivity.
Qed.

Lemma findOne_app {A} (p : A -> bool) (a b : list A) :
  findOne p (a ++ b)%list =
  match findOne p a with
  | Some x => Some x
  | None => findOne p b
  end.
Proof.
  unfold findOne. induction a as [|x a IH]; simpl; [reflexivity|].
  now destruct (p x).
Qed.

(** A successful upload under a name no stored document carries has appended
    its record. *)
Lemma upload_success (req : request) (file : uploaded) (st st' : state)
  (i : string) :
  (forall x, In x (files st) -> File.fileName x <> upload_name req st) ->
  respond (upload_handler req (Some file)) st = (res_json (JObj [("id", JStr i)]), st') ->
  i = upload_id req st /\
  (forall x, In x (files st) -> File.id x <> i) /\
  files st' =
    (files st ++ [File.mk (objectIds st) i (upload_name req st) (text file)])%list.
Proof.
  intros Hn. rewrite upload_handler_run. cbv zeta.
  assert (F : findOne (file_matches (ByFileName (upload_name req st))) (files st) = None).
  { apply findOne_none. intros x Hx. simpl.
    destruct (String.eqb_spec (File.fileName x) (upload_name req st)); [|reflexivity].
    now elim (Hn x Hx). }
  rewrite F. cbv beta iota.
  set (d := File.mk _ _ _ _).
  unfold File_save.
  destruct (_ || _); [intros H; discriminate H|].
  destruct (existsb _ (files st)) eqn:U; [intros H; discriminate H|].
  intros H. injection H as Hi Hst. subst i. split; [reflexivity|]. split.
  - intros x Hx E.
    assert (T : existsb (fun y => File.id y =? File.id d) (files st) = true).
    { apply existsb_exists. exists x. split; [exact Hx|]. now apply String.eqb_eq. }
    rewrite T in U. discriminate U.
  - now rewrite <- Hst.
Qed.

(** C4 (amended).  After a successful upload of content [c] under an explicit
    name [n] that no stored document carries, returning id [i], resolution of
    any identifier returns the first document, in storage order, whose [id] or
    [fileName] is the identifier: a document stored before the upload if one
    matches, the new record otherwise.  So resolving [n] finds content [c]
    provided no earlier document has [n] as its id, and resolving [i] finds
    content [c] provided no earlier document has [i] as its name. *)
Theorem C4_upload_then_resolve (req : request) (file : uploaded) (st st' : state)
  (n i : string) :
  explicit_name req = Some n ->
  (forall x, In x (files st) -> File.fileName x <> n) ->
  respond (upload_handler req (Some file)) st = (res_json (JObj [("id", JStr i)]), st') ->
  let inserted := File.mk (objectIds st) i n (text file) in
  (forall identifier,
     resolve identifier (files st') =
     match resolve identifier (files st) with
     | Some x => Some x
     | None => if (i =? identifier) || (n =? identifier) then Some inserted else None
     end) /\
  ((forall x, In x (files st) -> File.id x <> n) ->
   resolve n (files st') = Some inserted) /\
  ((forall x, In x (files st) -> File.fileName x <> i) ->
   resolve i (files st') = Some inserted) /\
  File.fileContent inserted = text file.
Proof.
  intros En Hn Hrun inserted.
  assert (Un : upload_name req st = n) by (unfold upload_name; now rewrite En).
  destruct (upload_success req file st st' i) as (Ei & Hi & Hf);
    [now rewrite Un | exact Hrun |].
  rewrite Un in Hf. fold inserted in Hf.
  assert (G : forall identifier,
     resolve identifier (files st') =
     match resolve identifier (files st) with
     | Some x => Some x
     | None => if (i =? identifier) || (n =? identifier) then Some inserted else None
     end).
  { intros identifier. unfold resolve. rewrite Hf, findOne_app.
    destruct (findOne _ (files st)); [reflexivity|].
    unfold findOne. simpl. now destruct (_ || _). }
  split; [exact G|]. split; [|split; [|reflexivity]].
  - intros Hid. rewrite G.
    assert (N : resolve n (files st) = None).
    { apply findOne_none. intros x Hx. simpl.
      rewrite (proj2 (String.eqb_neq _ _) (Hid x Hx)).
      now rewrite (proj2 (String.eqb_neq _ _) (Hn x Hx)). }
    now rewrite N, (String.eqb_refl n), orb_true_r.
  - intros Hname. rewrite G.
    assert (N : resolve i (files st) = None).
    { apply findOne_none. intros x Hx. simpl.
      rewrite (proj2 (String.eqb_neq _ _) (Hi x Hx)).
      now rewrite (proj2 (String.eqb_neq _ _) (Hname x Hx)). }
    now rewrite N, (String.eqb_refl i).
Qed.

(** ** Edit *)

Lemma edit_handler_run (req : request) (file : uploaded) (identifier : string)
  (st : state) :
  Js.present (params req) = Some identifier ->
  respond (edit_handler req (Some file)) st =
  match resolve identifier (files st) with
  | None => (res_status_json 404 (error_body "File not found"), st)
  | Some _ =>
      (res_json (message_body "File updated successfully"),
       set_files (updateFirst (file_matches (ByIdOrFileName identifier))
                    (with_content (text file)) (files st)) st)
  end.
Proof.
  intros Hp. unfold edit_handler, respond. rewrite Hp.
  unfold File_findOneAndUpdate, File_findOne, bind, gets, modify, ret, resolve.
  destruct (findOne _ (files st)) as [d|] eqn:F; simpl.
  - reflexivity.
  - rewrite updateFirst_none by (now apply findOne_none).
    now rewrite set_files_same.
Qed.

(** C5.  An edit whose identifier is the id or the fileName of no stored
    document is answered 404 "File not found" and leaves the whole state as
    it was.  Otherwise the first stored document that matches gets the new
    content; its [_id], [id] and [fileName], every other document, and the
    order of the collection stay as they were. *)
Theorem C5_edit (req : request) (file : uploaded) (identifier : string)
  (st : state) :
  Js.present (params req) = Some identifier ->
  (resolve identifier (files st) = None ->
   respond (edit_handler req (Some file)) st
   = (res_status_json 404 (error_body "File not found"), st)) /\
  (forall d, resolve identifier (files st) = Some d ->
   exists before after edited,
     files st = (before ++ d :: after)%list /\
     (forall x, In x before -> file_matches (ByIdOrFileName identifier) x = false) /\
     File.fileContent edited = text file /\
     File.id edited = File.id d /\
     File.fileName edited = File.fileName d /\
     File._id edited = File._id d /\
     respond (edit_handler req (Some file)) st
     = (res_json (message_body "File updated successfully"),
        set_files (before ++ edited :: after)%list st)).
Proof.
  intros Hp. split.
  - intros N. now rewrite (edit_handler_run req file identifier st Hp), N.
  - intros d F. rewrite (edit_handler_run req file identifier st Hp), F.
    destruct (findOne_split _ _ _ F) as (before & after & E & Pd & Hb).
    exists before, after, (with_content (text file) d).
    repeat split; try assumption.
    now rewrite E, updateFirst_split.
Qed.

(** The edit route reaches the handler once the gate and multer have passed. *)
Lemma edit_route (req : request) (file : uploaded) (now : Z) (uptime : Q)
  (st : state) :
  authenticate req st = (Done tt, st) ->
  file_part req = Some file ->
  includes allowedMimeTypes (mimetype file) = true ->
  serve PUT_edit req now uptime st = respond (edit_handler req (Some file)) st.
Proof.
  intros Ha Hf Hm.
  unfold serve, handler, edit, respond, bind. rewrite Ha.
  unfold upload_single. rewrite Hf, Hm. reflexivity.
Qed.

(** ** One-time passwords *)

Lemma create_key_run (req : request) (now : Z) (st : state) :
  respond (create_key req now) st =
  match Js.present (query_otp req) with
  | None =>
      (res_status_json 401 (error_body "OTP (One-Time Password) is required"),
       after_key_draws (objectIds st) (keys st) st)
  | Some token =>
      match TOTP_validate TOTP_SECRET 6 30 token (now + 30000)%Z with
      | Throws m =>
          (errorHandler {| statusCode := None; message := m |},
           after_key_draws (objectIds st) (keys st) st)
      | Returns delta =>
          if Js.truthy_num delta then
            match ApiKey_save (ApiKey.mk (objectIds st) (drawn_key st) (drawn_key_id st))
                    (keys st) with
            | inr c =>
                (res_json (JArr [JObj [("id", JStr (drawn_key_id st));
                                       ("key", JStr (drawn_key st));
                                       ("__v", JNum 0)]]),
                 after_key_draws (S (objectIds st)) c st)
            | inl e =>
                (errorHandler {| statusCode := None; message := driver_message e |},
                 after_key_draws (S (objectIds st)) (keys st) st)
            end
          else
            (res_status_json 401 (error_body "Invalid OTP (One-Time Password)"),
             after_key_draws (objectIds st) (keys st) st)
      end
  end.
Proof.
  unfold create_key, respond, bind, generateApiKeyID, generateApiKey, totp_validate,
    after_key_draws, drawn_key, drawn_key_id.
  cbn [files keys objectIds random_calls crypto_calls].
  destruct (Js.present (query_otp req)) as [token|]; [|reflexivity].
  destruct (TOTP_validate _ _ _ _ _) as [delta|m]; [|reflexivity].
  destruct (Js.truthy_num _); [|reflexivity].
  cbn [negb]. cbv beta iota.
  unfold new_ObjectId, ApiKey_insert, bind, gets, modify, storage_failure, throw,
    set_keys, ret.
  cbv beta iota. cbn [files keys objectIds random_calls crypto_calls].
  now destruct (ApiKey_save _ _).
Qed.

Lemma validate_run (req : request) (now : Z) (st : state) :
  respond (validate req now) st =
  match Js.present (query_otp req) with
  | None => (res_status_json 400 (error_body "OTP (One-Time Password) is required"), st)
  | Some token =>
      match TOTP_validate TOTP_SECRET 6 30 token (now + 30000)%Z with
      | Throws m => (errorHandler {| statusCode := None; message := m |}, st)
      | Returns delta =>
          (res_json (JObj [("isValid", JNum (if Js.truthy_num delta then 1 else 0));
                           ("timestamp", JNum (now + 30000))]), st)
      end
  end.
Proof.
  unfold validate, respond, bind, totp_validate, ret.
  destruct (Js.present (query_otp req)) as [token|]; [|reflexivity].
  now destruct (TOTP_validate _ _ _ _ _).
Qed.

(** C7.  Both [GET /validate] and [POST /create-key] ask the OTP library for a
    TOTP of 6 digits and period 30 under the configured secret, at the
    timestamp [Date.now() + 30000], and what they answer is fixed by what the
    library does with the token.
    - The library returns a delta: validate answers [isValid: 1] when the
      delta is truthy and [isValid: 0] when it is [null] or [0]; key creation
      answers 401 'Invalid OTP' and stores nothing when the delta is [null] or
      [0], and otherwise saves the key it drew: 200 with that key, which is
      appended to the stored keys, or the driver's error with nothing stored.
    - The library throws: the error reaches [errorHandler] on both routes
      (status 500), and nothing is stored.
    - The token is absent: validate answers 400, key creation 401, and
      nothing is stored. *)
Theorem C7_otp_validation (req : request) (now : Z) (uptime : Q) (st : state) :
  let timestamp := (now + 30000)%Z in
  let unchanged := after_key_draws (objectIds st) (keys st) st in
  (forall token, Js.present (query_otp req) = Some token ->
     (forall delta, TOTP_validate TOTP_SECRET 6 30 token timestamp = Returns delta ->
        serve GET_validate req now uptime st
        = (res_json (JObj [("isValid", JNum (if Js.truthy_num delta then 1 else 0));
                           ("timestamp", JNum timestamp)]), st) /\
        (delta = None \/ delta = Some 0%Z ->
         serve GET_validate req now uptime st
         = (res_json (JObj [("isValid", JNum 0); ("timestamp", JNum timestamp)]), st) /\
         serve POST_create_key req now uptime st
         = (res_status_json 401 (error_body "Invalid OTP (One-Time Password)"),
            unchanged)) /\
        (delta <> None -> delta <> Some 0%Z ->
         serve GET_validate req now uptime st
         = (res_json (JObj [("isValid", JNum 1); ("timestamp", JNum timestamp)]), st) /\
         serve POST_create_key req now uptime st
         = match ApiKey_save (ApiKey.mk (objectIds st) (drawn_key st) (drawn_key_id st))
                   (keys st) with
           | inr c =>
               (res_json (JArr [JObj [("id", JStr (drawn_key_id st));
                                      ("key", JStr (drawn_key st));
                                      ("__v", JNum 0)]]),
                after_key_draws (S (objectIds st)) c st)
           | inl e =>
               (errorHandler {| statusCode := None; message := driver_message e |},
                after_key_draws (S (objectIds st)) (keys st) st)
           end /\
         forall r st',
           serve POST_create_key req now uptime st = (r, st') ->
           (status r = 200 /\
            keys st' = (keys st
                        ++ [ApiKey.mk (objectIds st) (drawn_key st) (drawn_key_id st)])%list)
           \/ (status r = 500 /\ keys st' = keys st))) /\
     (forall m, TOTP_validate TOTP_SECRET 6 30 token timestamp = Throws m ->
        serve GET_validate req now uptime st
        = (errorHandler {| statusCode := None; message := m |}, st) /\
        serve POST_create_key req now uptime st
        = (errorHandler {| statusCode := None; message := m |}, unchanged) /\
        status (errorHandler {| statusCode := None; message := m |}) = 500)) /\
  (Js.present (query_otp req) = None ->
     serve GET_validate req now uptime st
     = (res_status_json 400 (error_body "OTP (One-Time Password) is required"), st) /\
     serve POST_create_key req now uptime st
     = (res_status_json 401 (error_body "OTP (One-Time Password) is required"),
        unchanged)).
Proof.
  intros timestamp unchanged.
  unfold serve, handler. rewrite validate_run, create_key_run. fold timestamp.
  split.
  - intros token Ht. rewrite Ht. split.
    + intros delta Hd. rewrite Hd. split; [reflexivity|]. split.
      * intros [-> | ->]; split; reflexivity.
      * intros Hn Hz.
        assert (Hv : Js.truthy_num delta = true).
        { destruct delta as [[|d|d]|]; try reflexivity; [now elim Hz | now elim Hn]. }
        rewrite Hv. split; [reflexivity|]. split; [reflexivity|].
        intros r st'. unfold ApiKey_save.
        destruct (_ || _).
        { intros E. injection E as <- <-. right. split; reflexivity. }
        destruct (existsb _ _); intros E; injection E as <- <-.
        -- right. split; reflexivity.
        -- left. split; reflexivity.
    + intros m Hm. rewrite Hm. split; [reflexivity|]. split; reflexivity.
  - intros Hn. rewrite Hn. split; reflexivity.
Qed.

(** ** Listings *)

(** C8 (amended).  For an authorised request, the key listing is the array of
    the projections [{_id, key, id}] of all stored keys, so every key's
    secret is in the listing under [key]; the document listing is the array of
    the projections [{_id, id, fileName}] of all stored documents, and none of
    its elements has a [fileContent] property.  Neither changes the state. *)
Theorem C8_listings (req : request) (now : Z) (uptime : Q) (st : state) :
  authenticate req st = (Done tt, st) ->
  serve GET_list_keys req now uptime st
  = (res_json (JArr (map project_key (keys st))), st) /\
  (forall k, In k (keys st) ->
     exists o, In o (elements (body (fst (serve GET_list_keys req now uptime st)))) /\
               field "key" o = Some (JStr (ApiKey.key k)) /\
               field "id" o = Some (JStr (ApiKey.id k))) /\
  serve GET_list req now uptime st
  = (res_json (JArr (map project_file (files st))), st) /\
  (forall o, In o (elements (body (fst (serve GET_list req now uptime st)))) ->
     has_field "fileContent" o = false /\
     exists d, In d (files st) /\
               o = JObj [("_id", JOid (File._id d)); ("id", JStr (File.id d));
                         ("fileName", JStr (File.fileName d))]).
Proof.
  intros Ha.
  assert (K : serve GET_list_keys req now uptime st
              = (res_json (JArr (map project_key (keys st))), st)).
  { unfold serve, handler, list_keys, respond, bind. now rewrite Ha. }
  assert (L : serve GET_list req now uptime st
              = (res_json (JArr (map project_file (files st))), st)).
  { unfold serve, handler, list_files, respond, bind. now rewrite Ha. }
  split; [exact K|]. split; [|split; [exact L|]].
  - intros k Hk. rewrite K. exists (project_key k). split.
    + simpl. now apply in_map.
    + split; reflexivity.
  - intros o Ho. rewrite L in Ho. simpl in Ho.
    apply in_map_iff in Ho as (d & <- & Hd). split; [reflexivity|].
    exists d. split; [exact Hd|reflexivity].
Qed.

(** ** Raw read *)

Lemma quote_char_length (c : ascii) : 1 <= String.length (quote_char c).
Proof.
  unfold quote_char.
  repeat match goal with |- context [if ?b then _ else _] => destruct b end;
    simpl; lia.
Qed.

Lemma quote_chars_length (s : string) :
  String.length s <= String.length (quote_chars s).
Proof.
  induction s as [|c s IH]; simpl; [lia|].
  rewrite length_append. pose proof (quote_char_length c). lia.
Qed.

(** The JSON text of a string is at least two characters longer than it. *)
Lemma JSON_stringify_string_length (s : string) :
  2 + String.length s <= String.length (JSON_stringify_string s).
Proof.
  unfold JSON_stringify_string. rewrite !length_append.
  pose proof (quote_chars_length s). simpl. lia.
Qed.

Lemma string_append_assoc (a b c : string) : ((a ++ b) ++ c = a ++ (b ++ c))%string.
Proof. induction a as [|x a IH]; simpl; [reflexivity|]. now rewrite IH. Qed.

Lemma unquote_quote_char (c : ascii) (r : string) :
  unquote_char (quote_char c ++ r) = Some (c, r).
Proof. destruct c as [[] [] [] [] [] [] [] []]; reflexivity. Qed.

Lemma quote_chars_injective (s1 s2 : string) :
  (quote_chars s1 ++ dquote = quote_chars s2 ++ dquote) -> s1 = s2.
Proof.
  revert s2. induction s1 as [|c1 s1 IH]; intros [|c2 s2] H.
  - reflexivity.
  - apply (f_equal unquote_char) in H. cbn [quote_chars] in H.
    rewrite string_append_assoc, unquote_quote_char in H. discriminate H.
  - apply (f_equal unquote_char) in H. cbn [quote_chars] in H.
    rewrite string_append_assoc, unquote_quote_char in H. discriminate H.
  - apply (f_equal unquote_char) in H. cbn [quote_chars] in H.
    rewrite !string_append_assoc, !unquote_quote_char in H.
    injection H as -> H. f_equal. now apply IH.
Qed.

(** Two strings with the same JSON text are the same string. *)
Lemma JSON_stringify_string_injective (s1 s2 : string) :
  JSON_stringify_string s1 = JSON_stringify_string s2 -> s1 = s2.
Proof.
  unfold JSON_stringify_string, dquote. cbn [append].
  intros H. injection H as H. now apply quote_chars_injective.
Qed.

(** C9 (amended).  A raw read by the id or the fileName of a stored document
    answers with status 200 and [res.json] of the content of the first
    document in storage order whose id or fileName is the identifier; that is
    the document itself when no other stored document matches.  The text of
    the body is the JSON string literal of the content (quoted and escaped):
    it is never the content itself, and it determines the content.  The state
    is unchanged. *)
Theorem C9_raw_read (req : request) (identifier : string) (now : Z) (uptime : Q)
  (st : state) (d : File.t) :
  Js.present (params req) = Some identifier ->
  In d (files st) ->
  File.id d = identifier \/ File.fileName d = identifier ->
  exists before found after,
    files st = (before ++ found :: after)%list /\
    (forall x, In x before -> file_matches (ByIdOrFileName identifier) x = false) /\
    file_matches (ByIdOrFileName identifier) found = true /\
    ((forall x, In x (files st) ->
        file_matches (ByIdOrFileName identifier) x = true -> x = d) -> found = d) /\
    serve GET_raw req now uptime st = (res_json (JStr (File.fileContent found)), st) /\
    body_text (fst (serve GET_raw req now uptime st))
    = Some (JSON_stringify_string (File.fileContent found)) /\
    JSON_stringify_string (File.fileContent found) <> File.fileContent found /\
    (forall c, JSON_stringify_string c = JSON_stringify_string (File.fileContent found) ->
       c = File.fileContent found).
Proof.
  intros Hp Hd Hm.
  assert (M : file_matches (ByIdOrFileName identifier) d = true).
  { simpl. destruct Hm as [<-|<-]; rewrite String.eqb_refl; [reflexivity|].
    apply orb_true_r. }
  destruct (resolve identifier (files st)) as [found|] eqn:F.
  2:{ apply findOne_none with (x := d) in F; [|exact Hd]. congruence. }
  destruct (findOne_split _ _ _ F) as (before & after & E & Pf & Hb).
  assert (R : serve GET_raw req now uptime st
              = (res_json (JStr (File.fileContent found)), st)).
  { unfold serve, handler, raw, respond. rewrite Hp.
    unfold bind, File_findOne, gets. unfold resolve in F. now rewrite F. }
  exists before, found, after.
  split; [exact E|]. split; [exact Hb|]. split; [exact Pf|]. split; [|split; [exact R|]].
  - intros U. apply U; [|exact Pf]. rewrite E. apply in_or_app. right. now left.
  - split; [now rewrite R|]. split.
    + intros Eq. pose proof (JSON_stringify_string_length (File.fileContent found)) as L.
      rewrite Eq in L. lia.
    + intros c. apply JSON_stringify_string_injective.
Qed.

(** A raw read of an identifier that matches nothing is answered 404. *)
Lemma raw_read_missing (req : request) (identifier : string) (now : Z) (uptime : Q)
  (st : state) :
  Js.present (params req) = Some identifier ->
  resolve identifier (files st) = None ->
  serve GET_raw req now uptime st
  = (res_status_json 404 (error_body "File not found"), st).
Proof.
  intros Hp F. unfold serve, handler, raw, respond. rewrite Hp.
  unfold bind, File_findOne, gets. unfold resolve in F. now rewrite F.
Qed.

(** ** Health *)

Lemma Js_lt_spec (a b : Q) : Js.lt a b = true <-> (a < b)%Q.
Proof.
  unfold Js.lt. destruct (Qle_bool b a) eqn:E; simpl.
  - apply Qle_bool_iff in E. split; [discriminate|].
    intros H. exfalso. exact (Qlt_not_le _ _ H E).
  - split; [intros _|reflexivity].
    apply Qnot_le_lt. intros H. apply Qle_bool_iff in H. congruence.
Qed.

(** C10.  [GET /health] reports ['healthy'] exactly when the uptime is below
    60 seconds and ['degraded'] exactly when it is 60 seconds or more; this is
    the [status] of the response; and at every uptime it is the opposite of
    what the comment next to it describes. *)
Theorem C10_health_status (req : request) (now : Z) (uptime : Q) (st : state) :
  (health_status uptime = "healthy" <-> (uptime < inject_Z 60)%Q) /\
  (health_status uptime = "degraded" <-> (inject_Z 60 <= uptime)%Q) /\
  snd (serve GET_health req now uptime st) = st /\
  status (fst (serve GET_health req now uptime st)) = 200 /\
  field "status" (body (fst (serve GET_health req now uptime st)))
  = Some (JStr (health_status uptime)) /\
  health_status uptime <> health_status_of_comment uptime.
Proof.
  assert (F : field "status" (body (fst (serve GET_health req now uptime st)))
              = Some (JStr (health_status uptime))) by reflexivity.
  split; [|split; [|split; [reflexivity|split; [reflexivity|split; [exact F|]]]]];
    clear F; unfold health_status, health_status_of_comment;
    destruct (Js.lt uptime (inject_Z 60)) eqn:E.
  - apply Js_lt_spec in E. split; auto.
  - split; [intros H; discriminate H|].
    intros H. apply Js_lt_spec in H. congruence.
  - apply Js_lt_spec in E. split; [intros H; discriminate H|].
    intros H. exfalso. exact (Qlt_not_le _ _ E H).
  - split; [intros _|reflexivity].
    apply Qnot_lt_le. intros H. apply Js_lt_spec in H. congruence.
  - intros H. discriminate H.
  - intros H. discriminate H.
Qed.

End Properties.

(** * The sample platform and store *)

Lemma Sample_random_range : random_in_unit_interval Sample.platform.
Proof.
  intros k. change (@Math_random Sample.platform k) with (Sample.random k).
  unfold Sample.random, Js.below_one, Qle. cbn [Qnum Qden].
  assert (B : (7 * k + 3) mod 52 < 52) by (apply Nat.mod_upper_bound; discriminate).
  lia.
Qed.

(** ** C1: the name invariant and [overwrite=true] *)

Section NameInvariant.
Context {platform : Platform}.

Lemma NoDup_snoc {A} (l : list A) (a : A) :
  NoDup l -> ~ In a l -> NoDup (l ++ [a])%list.
Proof.
  induction l as [|x l IH]; simpl; intros H N.
  - constructor; [intros []|constructor].
  - inversion H as [|y m Hy Hm]; subst. constructor.
    + intros Hin. apply in_app_or in Hin as [Hin|[<-|[]]]; [contradiction|].
      apply N. now left.
    + apply IH; [exact Hm|]. intros X. apply N. now right.
Qed.

Lemma updateFirst_names (p : File.t -> bool) (c : string) (l : list File.t) :
  map File.fileName (updateFirst p (with_content c) l) = map File.fileName l.
Proof.
  induction l as [|a r IH]; simpl; [reflexivity|].
  destruct (p a); simpl; [reflexivity|]. now rewrite IH.
Qed.

Lemma deleteFirst_incl {A} (p : A -> bool) (l : list A) (x : A) :
  In x (deleteFirst p l) -> In x l.
Proof.
  induction l as [|a r IH]; simpl; [tauto|].
  destruct (p a); simpl; [tauto|]. intros [H|H]; [now left|right; now apply IH].
Qed.

Lemma deleteFirst_names_unique (p : File.t -> bool) (l : list File.t) :
  names_unique l -> names_unique (deleteFirst p l).
Proof.
  unfold names_unique. induction l as [|a r IH]; simpl; intros H; [exact H|].
  inversion H as [|x m Hx Hm]; subst.
  destruct (p a); simpl; [exact Hm|].
  constructor; [|now apply IH].
  intros Hin. apply Hx. apply in_map_iff in Hin as (y & Ey & Hy).
  apply in_map_iff. exists y. split; [exact Ey|]. now apply deleteFirst_incl in Hy.
Qed.

(** Editing keeps the names unique. *)
Lemma edit_keeps_names_unique (req : request) (file : option uploaded) (st : state) :
  names_unique (files st) ->
  names_unique (files (snd (respond (edit_handler req file) st))).
Proof.
  intros H. unfold edit_handler, respond.
  destruct (Js.present (params req)) as [identifier|]; [|exact H].
  destruct file as [file|]; [|exact H].
  unfold File_findOneAndUpdate, File_findOne, bind, gets, modify, ret.
  destruct (findOne _ (files st)); simpl;
    unfold names_unique; now rewrite updateFirst_names.
Qed.

(** Deleting keeps the names unique. *)
Lemma delete_keeps_names_unique (req : request) (now : Z) (uptime : Q) (st : state) :
  names_unique (files st) ->
  names_unique (files (snd (serve DELETE_delete req now uptime st))).
Proof.
  intros H. unfold serve, handler, delete, respond, bind.
  rewrite authenticate_run.
  destruct (credential req) as [k|]; [|exact H].
  destruct (findOne (key_matches (ByKey k)) (keys st)); [|exact H].
  destruct (Js.present (params req)) as [identifier|]; [|exact H].
  unfold File_findOneAndDelete, File_findOne, bind, gets, modify, ret.
  destruct (findOne (file_matches (ByIdOrFileName identifier)) (files st)) as [d|];
    [|exact H].
  destruct (findOne (file_matches (ByOid (File._id d))) (files st)); simpl;
    now apply deleteFirst_names_unique.
Qed.

(** An upload without [overwrite=true] keeps the names unique. *)
Lemma upload_keeps_names_unique (req : request) (file : uploaded) (st : state) :
  overwrite_flag req = false ->
  names_unique (files st) ->
  names_unique (files (snd (respond (upload_handler req (Some file)) st))).
Proof.
  intros Ho H. rewrite upload_handler_run. cbv zeta. rewrite Ho.
  destruct (findOne _ (files st)) as [d|] eqn:F; [exact H|].
  destruct (File_save_cases
              (File.mk (objectIds st) (upload_id req st) (upload_name req st) (text file))
              (files st)) as [E|[e E]]; rewrite E; [|exact H].
  cbn [snd files]. unfold names_unique. rewrite map_app. simpl.
  apply NoDup_snoc; [exact H|].
  intros Hin. apply in_map_iff in Hin as (y & Ey & Hy).
  apply findOne_none with (x := y) in F; [|exact Hy].
  simpl in F. rewrite Ey, String.eqb_refl in F. discriminate F.
Qed.

(** An upload with [overwrite=true] over a stored name, once the storage layer
    accepts the record, leaves two documents with that name. *)
Lemma overwrite_breaks_names_unique (req : request) (file : uploaded) (st : state)
  (d : File.t) :
  random_in_unit_interval platform ->
  overwrite_flag req = true ->
  In d (files st) ->
  File.fileName d = upload_name req st ->
  text file <> EmptyString ->
  (forall x, In x (files st) -> File.id x <> upload_id req st) ->
  ~ names_unique (files (snd (respond (upload_handler req (Some file)) st))).
Proof.
  intros R Ho Hd Hn Hc Hu.
  destruct (overwrite_upload_run req file st d R Ho Hd Hn) as [_ Hf].
  rewrite (Hf Hc Hu). unfold names_unique. rewrite map_app. simpl.
  intros N. apply NoDup_remove_2 in N. apply N. rewrite app_nil_r.
  rewrite <- Hn. now apply in_map.
Qed.

Lemma authenticate_cases (req : request) (st : state) :
  authenticate req st = (Done tt, st) \/ exists e, authenticate req st = (Raised e, st).
Proof.
  rewrite authenticate_run.
  destruct (credential req) as [k|]; [|right; eauto].
  destruct (findOne _ (keys st)); [now left|right; eauto].
Qed.

(** Every route keeps the names unique, an upload provided it does not ask
    for [overwrite=true]. *)
Lemma serve_keeps_names_unique (a : arrival) (st : state) :
  without_overwrite a ->
  names_unique (files st) ->
  names_unique (files (snd (serve (arrival_route a) (arrival_request a)
                              (arrival_now a) (arrival_uptime a) st))).
Proof.
  destruct a as [r req now uptime]. unfold without_overwrite. cbn [arrival_route
    arrival_request arrival_now arrival_uptime]. intros Ho H.
  assert (Rej : protected r = true ->
                forall e, authenticate req st = (Raised e, st) ->
                names_unique (files (snd (serve r req now uptime st)))).
  { intros Hr e He. now rewrite (protected_rejected r req now uptime st e Hr He). }
  destruct r.
  - unfold serve, handler. rewrite validate_run.
    destruct (Js.present (query_otp req)); [|exact H].
    now destruct (TOTP_validate _ _ _ _ _).
  - exact H.
  - unfold serve, handler. rewrite create_key_run.
    destruct (Js.present (query_otp req)); [|exact H].
    destruct (TOTP_validate _ _ _ _ _); [|exact H].
    destruct (Js.truthy_num _); [|exact H].
    now destruct (ApiKey_save _ _).
  - destruct (authenticate_cases req st) as [A|[e A]]; [|now apply (Rej eq_refl e)].
    unfold serve, handler, delete_key, respond, bind. rewrite A.
    destruct (Js.present (params req)); [|exact H].
    unfold ApiKey_findOneAndDelete, ApiKey_findOne, bind, gets, modify, ret.
    now destruct (findOne _ (keys st)).
  - destruct (authenticate_cases req st) as [A|[e A]]; [|now apply (Rej eq_refl e)].
    unfold serve, handler, list_keys, respond, bind. now rewrite A.
  - destruct (authenticate_cases req st) as [A|[e A]]; [|now apply (Rej eq_refl e)].
    destruct (file_part req) as [f|] eqn:P.
    + destruct (includes allowedMimeTypes (mimetype f)) eqn:I.
      * rewrite (upload_route req f now uptime st A P I).
        apply upload_keeps_names_unique; [now apply Ho|exact H].
      * unfold serve, handler, upload, respond, bind. rewrite A.
        unfold upload_single. now rewrite P, I.
    + unfold serve, handler, upload, respond, bind. rewrite A.
      unfold upload_single. now rewrite P.
  - unfold serve, handler, raw, respond.
    destruct (Js.present (params req)); [|exact H].
    unfold bind, File_findOne, gets. now destruct (findOne _ (files st)).
  - destruct (authenticate_cases req st) as [A|[e A]]; [|now apply (Rej eq_refl e)].
    unfold serve, handler, list_files, respond, bind. now rewrite A.
  - destruct (authenticate_cases req st) as [A|[e A]]; [|now apply (Rej eq_refl e)].
    destruct (file_part req) as [f|] eqn:P.
    + destruct (includes allowedMimeTypes (mimetype f)) eqn:I.
      * rewrite (edit_route req f now uptime st A P I).
        now apply edit_keeps_names_unique.
      * unfold serve, handler, edit, respond, bind. rewrite A.
        unfold upload_single. now rewrite P, I.
    + unfold serve, handler, edit, respond, bind. rewrite A.
      unfold upload_single. rewrite P.
      change (names_unique (files (snd (respond (edit_handler req None) st)))).
      now apply edit_keeps_names_unique.
  - now apply delete_keeps_names_unique.
Qed.

(** Every sequence of requests in which no upload asks for [overwrite=true]
    keeps the names unique. *)
Lemma serve_all_keeps_names_unique (l : list arrival) (st : state) :
  Forall without_overwrite l ->
  names_unique (files st) ->
  names_unique (files (serve_all l st)).
Proof.
  revert st. induction l as [|a r IH]; intros st Hl H; [exact H|].
  inversion Hl as [|x m Ha Hr]; subst. cbn [serve_all].
  apply IH; [exact Hr|]. now apply serve_keeps_names_unique.
Qed.

End NameInvariant.

(** C1.  On the sample store, which has one document per name, an authorised
    upload of "world" under the stored name "notes" with [overwrite=true] is
    answered [{id}] and leaves two documents named "notes": the one-request
    sequence breaks the invariant.  A raw read of "notes" afterwards still
    returns the old content. *)
Theorem C1_overwrite_duplicates_name :
  let req := Sample.upload_request "notes" (Some "true") "world" in
  let result := @serve Sample.platform POST_upload req 0%Z 0%Q Sample.store in
  names_unique (files Sample.store) /\
  fst result = res_json (JObj [("id", JStr "DKRYf")]) /\
  files (snd result)
  = [File.mk 1 "abcde" "notes" "hello"; File.mk 2 "DKRYf" "notes" "world"] /\
  ~ names_unique
      (files (@serve_all Sample.platform
                [{| arrival_route := POST_upload; arrival_request := req;
                    arrival_now := 0%Z; arrival_uptime := 0%Q |}] Sample.store)) /\
  fst (@serve Sample.platform GET_raw (Sample.identifier_request "notes" None)
         0%Z 0%Q (snd result))
  = res_json (JStr "hello").
Proof.
  cbv zeta. split; [|split; [|split; [|split]]].
  - unfold names_unique. simpl. constructor; [intros []|constructor].
  - reflexivity.
  - reflexivity.
  - unfold names_unique. cbn [serve_all arrival_route arrival_request arrival_now
      arrival_uptime].
    change (files (snd (@serve Sample.platform POST_upload
              (Sample.upload_request "notes" (Some "true") "world") 0%Z 0%Q Sample.store)))
      with [File.mk 1 "abcde" "notes" "hello"; File.mk 2 "DKRYf" "notes" "world"].
    simpl. intros H. inversion H as [|x l Hx Hl]. apply Hx. now left.
  - reflexivity.
Qed.

(** ** C2 *)

(** The claim as stated fails when the generated id is already stored: the
    upload with [overwrite=true] over the existing name is answered 500, no
    [{id}] is returned and no record is added. *)
Lemma C2_counterexample :
  let req := Sample.upload_request "notes" (Some "true") "world" in
  let result := @serve Sample.platform POST_upload req 0%Z 0%Q Sample.clash_store in
  overwrite_flag req = true /\
  (exists d, In d (files Sample.clash_store) /\
             File.fileName d = @upload_name Sample.platform req Sample.clash_store) /\
  fst result = res_status_json 500 (error_body "E11000 duplicate key error") /\
  files (snd result) = files Sample.clash_store.
Proof.
  cbv zeta. split; [reflexivity|]. split; [|split; reflexivity].
  eexists. split; [left; reflexivity|reflexivity].
Qed.

Lemma C2_witness :
  let req := Sample.upload_request "notes" (Some "true") "world" in
  let result :=
    @respond (@upload_handler Sample.platform req (Some (Sample.text_plain "world")))
      Sample.store in
  fst result = res_json (JObj [("id", JStr "DKRYf")]) /\
  files (snd result)
  = [Sample.notes; File.mk 2 "DKRYf" "notes" "world"].
Proof.
  cbv zeta.
  destruct (@C2_overwrite_appends_record Sample.platform
              (Sample.upload_request "notes" (Some "true") "world")
              (Sample.text_plain "world") Sample.store Sample.notes
              Sample_random_range eq_refl (or_introl eq_refl) eq_refl)
    as (_ & _ & _ & H & _).
  apply H.
  - discriminate.
  - intros x [<-|[]]. discriminate.
Defined.

(** ** C3 *)

Lemma C3_witness :
  exists st',
    @respond (@upload_handler Sample.platform
                (Sample.upload_request "notes" None "world")
                (Some (Sample.text_plain "world"))) Sample.store
    = (res_status_json 409 (error_body "File name already exists"), st') /\
    files st' = files Sample.store /\ keys st' = keys Sample.store.
Proof.
  apply (@C3_upload_conflict Sample.platform
           (Sample.upload_request "notes" None "world")
           (Sample.text_plain "world") Sample.store Sample.notes).
  - reflexivity.
  - left. reflexivity.
  - reflexivity.
Defined.

(** ** C4 *)

(** The claim as stated fails when the chosen name is the id of an older
    document: the name "abcde" is carried by no stored document, the upload
    succeeds, and resolving "abcde" finds the older document with id "abcde"
    and content "hello", not the uploaded "new". *)
Lemma C4_counterexample :
  let req := Sample.upload_request "abcde" None "new" in
  let result := @serve Sample.platform POST_upload req 0%Z 0%Q Sample.store in
  explicit_name req = Some "abcde" /\
  (forall x, In x (files Sample.store) -> File.fileName x <> "abcde") /\
  fst result = res_json (JObj [("id", JStr "DKRYf")]) /\
  resolve "abcde" (files (snd result)) = Some Sample.notes /\
  fst (@serve Sample.platform GET_raw (Sample.identifier_request "abcde" None)
         0%Z 0%Q (snd result))
  = res_json (JStr "hello") /\
  ~ (exists x, resolve "abcde" (files (snd result)) = Some x /\
               File.fileContent x = "new").
Proof.
  cbv zeta. split; [reflexivity|]. split; [|split; [reflexivity|]].
  - intros x [<-|[]]. discriminate.
  - split; [reflexivity|]. split; [reflexivity|].
    intros (x & Hx & Hc).
    change (resolve "abcde" (files (snd (@serve Sample.platform POST_upload
              (Sample.upload_request "abcde" None "new") 0%Z 0%Q Sample.store))))
      with (Some Sample.notes) in Hx.
    injection Hx as <-. discriminate Hc.
Qed.

Lemma C4_witness :
  let inserted := File.mk 2 "DKRYf" "todo" "milk" in
  let st' := set_files [Sample.notes; inserted]
               {| files := []; keys := [Sample.key0]; objectIds := 3;
                  random_calls := 5; crypto_calls := 0 |} in
  resolve "todo" (files st') = Some inserted /\
  resolve "DKRYf" (files st') = Some inserted /\
  File.fileContent inserted = "milk".
Proof.
  cbv zeta.
  destruct (@C4_upload_then_resolve Sample.platform
              (Sample.upload_request "todo" None "milk") (Sample.text_plain "milk")
              Sample.store
              (set_files [Sample.notes; File.mk 2 "DKRYf" "todo" "milk"]
                 {| files := []; keys := [Sample.key0]; objectIds := 3;
                    random_calls := 5; crypto_calls := 0 |})
              "todo" "DKRYf" eq_refl)
    as (_ & Hn & Hi & Hc).
  - intros x [<-|[]]. discriminate.
  - reflexivity.
  - split; [|split].
    + apply Hn. intros x [<-|[]]. discriminate.
    + apply Hi. intros x [<-|[]]. discriminate.
    + exact Hc.
Defined.

(** ** C5 *)

Lemma C5_witness :
  respond (edit_handler (Sample.identifier_request "nothing" (Some "world"))
              (Some (Sample.text_plain "world"))) Sample.store
  = (res_status_json 404 (error_body "File not found"), Sample.store) /\
  exists before after edited,
    files Sample.store = (before ++ Sample.notes :: after)%list /\
    File.fileContent edited = "world" /\
    File.id edited = "abcde" /\ File.fileName edited = "notes" /\
    respond (edit_handler (Sample.identifier_request "notes" (Some "world"))
                (Some (Sample.text_plain "world"))) Sample.store
    = (res_json (message_body "File updated successfully"),
       set_files (before ++ edited :: after)%list Sample.store).
Proof.
  split.
  - apply (C5_edit (Sample.identifier_request "nothing" (Some "world"))
             (Sample.text_plain "world") "nothing" Sample.store eq_refl).
    reflexivity.
  - destruct (C5_edit (Sample.identifier_request "notes" (Some "world"))
                (Sample.text_plain "world") "notes" Sample.store eq_refl) as [_ H].
    destruct (H Sample.notes eq_refl)
      as (before & after & edited & E & _ & Hc & Hi & Hn & _ & R).
    exists before, after, edited. repeat split; assumption.
Defined.

(** ** C6 *)

Lemma C6_witness :
  @serve Sample.platform POST_upload Sample.no_request 0%Z 0%Q Sample.store
  = (res_status_json 401 (error_body "API key is required"), Sample.store) /\
  @serve Sample.platform DELETE_delete
    (Sample.identifier_request "notes" None) 0%Z 0%Q
    (set_keys [] Sample.store)
  = (res_status_json 401 (error_body "Invalid API key"), set_keys [] Sample.store).
Proof.
  split.
  - apply (@C6_authentication_gate Sample.platform POST_upload Sample.no_request
             0%Z 0%Q Sample.store eq_refl).
    reflexivity.
  - destruct (@C6_authentication_gate Sample.platform DELETE_delete
                (Sample.identifier_request "notes" None) 0%Z 0%Q
                (set_keys [] Sample.store) eq_refl) as (_ & _ & H & _).
    apply (H (ApiKey.key Sample.key0) eq_refl). intros x [].
Defined.

(** ** C7 *)

(** The claim as stated fails where the library throws: on the sample
    platform the token [12345é] has the six characters the library expects
    and one of them is outside ASCII, the comparison with the generated token
    throws, and neither route yields a non-valid result: both answer 500
    through [errorHandler]. *)
Lemma C7_counterexample :
  let req := Sample.otp_request (Some Sample.token_with_accent) in
  let failure := res_status_json 500
                   (error_body "Input buffers must have the same byte length") in
  String.length Sample.token_with_accent = 6 /\
  @serve Sample.platform GET_validate req 1000%Z 0%Q Sample.store
  = (failure, Sample.store) /\
  fst (@serve Sample.platform GET_validate req 1000%Z 0%Q Sample.store)
  <> res_json (JObj [("isValid", JNum 0); ("timestamp", JNum 31000)]) /\
  fst (@serve Sample.platform POST_create_key req 1000%Z 0%Q Sample.store) = failure /\
  fst (@serve Sample.platform POST_create_key req 1000%Z 0%Q Sample.store)
  <> res_status_json 401 (error_body "Invalid OTP (One-Time Password)").
Proof.
  cbv zeta. split; [reflexivity|]. split; [reflexivity|]. split.
  - intros H. apply (f_equal status) in H. cbv in H. discriminate H.
  - split; [reflexivity|].
    intros H. apply (f_equal status) in H. cbv in H. discriminate H.
Qed.

Lemma C7_witness :
  (@serve Sample.platform GET_validate (Sample.otp_request (Some "12345")) 1000%Z 0%Q
     Sample.store
   = (res_json (JObj [("isValid", JNum 0); ("timestamp", JNum 31000)]), Sample.store) /\
   fst (@serve Sample.platform POST_create_key (Sample.otp_request (Some "12345"))
          1000%Z 0%Q Sample.store)
   = res_status_json 401 (error_body "Invalid OTP (One-Time Password)")) /\
  (@serve Sample.platform GET_validate (Sample.otp_request (Some "492039")) 1000%Z 0%Q
     Sample.store
   = (res_json (JObj [("isValid", JNum 1); ("timestamp", JNum 31000)]), Sample.store) /\
   fst (@serve Sample.platform POST_create_key (Sample.otp_request (Some "492039"))
          1000%Z 0%Q Sample.store)
   = res_json (JArr [JObj [("id", JStr "0x0ecfff");
                           ("key", JStr "2a2a2a2a2a2a2a2a2a2a2a2a2a2a2a2a");
                           ("__v", JNum 0)]])) /\
  (status (fst (@serve Sample.platform GET_validate
                  (Sample.otp_request (Some Sample.token_with_accent)) 1000%Z 0%Q
                  Sample.store)) = 500 /\
   keys (snd (@serve Sample.platform POST_create_key
                (Sample.otp_request (Some Sample.token_with_accent)) 1000%Z 0%Q
                Sample.store)) = keys Sample.store) /\
  @serve Sample.platform GET_validate (Sample.otp_request None) 1000%Z 0%Q Sample.store
  = (res_status_json 400 (error_body "OTP (One-Time Password) is required"),
     Sample.store).
Proof.
  split; [|split; [|split]].
  - destruct (@C7_otp_validation Sample.platform (Sample.otp_request (Some "12345"))
                1000%Z 0%Q Sample.store) as [H _].
    destruct (H "12345" eq_refl) as [R _].
    destruct (R None eq_refl) as (_ & N & _).
    destruct (N (or_introl eq_refl)) as [V K].
    split; [exact V|]. rewrite K. reflexivity.
  - destruct (@C7_otp_validation Sample.platform (Sample.otp_request (Some "492039"))
                1000%Z 0%Q Sample.store) as [H _].
    destruct (H "492039" eq_refl) as [R _].
    destruct (R (Some (-1)%Z) eq_refl) as (_ & _ & Y).
    assert (N1 : Some (-1)%Z <> @None Z) by (intros E; discriminate E).
    assert (N2 : Some (-1)%Z <> Some 0%Z) by (intros E; discriminate E).
    destruct (Y N1 N2) as (V & K & _).
    split; [exact V|]. rewrite K. reflexivity.
  - destruct (@C7_otp_validation Sample.platform
                (Sample.otp_request (Some Sample.token_with_accent))
                1000%Z 0%Q Sample.store) as [H _].
    destruct (H Sample.token_with_accent eq_refl) as [_ T].
    destruct (T "Input buffers must have the same byte length" eq_refl) as (V & K & S5).
    split; [rewrite V; exact S5|]. rewrite K. reflexivity.
  - destruct (@C7_otp_validation Sample.platform (Sample.otp_request None)
                1000%Z 0%Q Sample.store) as [_ A].
    exact (proj1 (A eq_refl)).
Defined.

(** ** C8 *)

(** The claim as stated fails for the key listing: the listing of the sample
    store contains the secret of its key, under [key]. *)
Lemma C8_counterexample :
  exists o,
    In o (elements (body (fst (@serve Sample.platform GET_list_keys Sample.authorised
                                 0%Z 0%Q Sample.store)))) /\
    has_field "key" o = true /\
    field "key" o = Some (JStr (ApiKey.key Sample.key0)).
Proof.
  exists (project_key Sample.key0). split; [left; reflexivity|].
  split; reflexivity.
Qed.

Lemma C8_witness :
  @serve Sample.platform GET_list_keys Sample.authorised 0%Z 0%Q Sample.store
  = (res_json (JArr [JObj [("_id", JOid 0);
                           ("key", JStr "000102030405060708090a0b0c0d0e0f");
                           ("id", JStr "0x00a1b2")]]), Sample.store) /\
  @serve Sample.platform GET_list Sample.authorised 0%Z 0%Q Sample.store
  = (res_json (JArr [JObj [("_id", JOid 1); ("id", JStr "abcde");
                           ("fileName", JStr "notes")]]), Sample.store).
Proof.
  destruct (@C8_listings Sample.platform Sample.authorised 0%Z 0%Q Sample.store eq_refl)
    as (K & _ & L & _).
  split; [exact K|exact L].
Defined.

(** ** C9 *)

(** The claim as stated fails on the sample store: the body of the raw read of
    "notes" is the seven characters of the JSON literal, quotes included, not
    the five characters of the content. *)
Lemma C9_counterexample :
  let r := fst (@serve Sample.platform GET_raw (Sample.identifier_request "notes" None)
                  0%Z 0%Q Sample.store) in
  resolve "notes" (files Sample.store) = Some Sample.notes /\
  File.fileContent Sample.notes = "hello" /\
  body_text r = Some (String dquote_char ("hello" ++ String dquote_char EmptyString)) /\
  body_text r <> Some "hello".
Proof.
  cbv zeta. split; [reflexivity|]. split; [reflexivity|]. split; [reflexivity|].
  intros H. discriminate H.
Qed.

Lemma C9_witness :
  @serve Sample.platform GET_raw (Sample.identifier_request "abcde" None) 0%Z 0%Q
    Sample.store
  = (res_json (JStr "hello"), Sample.store).
Proof.
  destruct (@C9_raw_read Sample.platform (Sample.identifier_request "abcde" None)
              "abcde" 0%Z 0%Q Sample.store Sample.notes eq_refl (or_introl eq_refl)
              (or_introl eq_refl))
    as (before & found & after & _ & _ & _ & U & R & _).
  rewrite R. rewrite U; [reflexivity|].
  intros x [<-|[]] _. reflexivity.
Defined.

(** * Further properties of the handlers *)

Lemma deleteFirst_none {A} (p : A -> bool) (c : list A) :
  (forall x, In x c -> p x = false) -> deleteFirst p c = c.
Proof.
  induction c as [|a r IH]; simpl; intros H; [reflexivity|].
  rewrite (H a (or_introl eq_refl)). f_equal. apply IH. intros x Hx. apply H. now right.
Qed.

Lemma deleteFirst_NoDup_map {A B} (f : A -> B) (p : A -> bool) (l : list A) :
  NoDup (map f l) -> NoDup (map f (deleteFirst p l)).
Proof.
  induction l as [|a r IH]; simpl; intros H; [exact H|].
  inversion H as [|x m Hx Hm]; subst.
  destruct (p a); simpl; [exact Hm|].
  constructor; [|now apply IH].
  intros Hin. apply Hx. apply in_map_iff in Hin as (y & Ey & Hy).
  apply in_map_iff. exists y. split; [exact Ey|]. now apply deleteFirst_incl in Hy.
Qed.

Lemma updateFirst_ids (p : File.t -> bool) (c : string) (l : list File.t) :
  map File.id (updateFirst p (with_content c) l) = map File.id l.
Proof.
  induction l as [|a r IH]; simpl; [reflexivity|].
  destruct (p a); simpl; [reflexivity|]. now rewrite IH.
Qed.

Lemma updateFirst_oids (p : File.t -> bool) (c : string) (l : list File.t) :
  map File._id (updateFirst p (with_content c) l) = map File._id l.
Proof.
  induction l as [|a r IH]; simpl; [reflexivity|].
  destruct (p a); simpl; [reflexivity|]. now rewrite IH.
Qed.

Lemma File_save_inr (d : File.t) (c c' : list File.t) :
  File_save d c = inr c' ->
  c' = (c ++ [d])%list /\
  File.id d <> EmptyString /\ File.fileName d <> EmptyString /\
  File.fileContent d <> EmptyString /\
  (forall x, In x c -> File.id x <> File.id d).
Proof.
  unfold File_save.
  destruct (_ || _) eqn:V; [intros H; discriminate H|].
  destruct (existsb _ c) eqn:U; [intros H; discriminate H|].
  intros H. injection H as <-.
  apply orb_false_elim in V as [V Vc]. apply orb_false_elim in V as [Vi Vn].
  split; [reflexivity|].
  split; [now apply String.eqb_neq|]. split; [now apply String.eqb_neq|].
  split; [now apply String.eqb_neq|].
  intros x Hx E.
  assert (T : existsb (fun y => File.id y =? File.id d) c = true).
  { apply existsb_exists. exists x. split; [exact Hx|]. now apply String.eqb_eq. }
  rewrite T in U. discriminate U.
Qed.

Lemma ApiKey_save_inr (k : ApiKey.t) (c c' : list ApiKey.t) :
  ApiKey_save k c = inr c' ->
  c' = (c ++ [k])%list /\
  ApiKey.key k <> EmptyString /\ ApiKey.id k <> EmptyString /\
  (forall x, In x c -> ApiKey.key x <> ApiKey.key k /\ ApiKey.id x <> ApiKey.id k).
Proof.
  unfold ApiKey_save.
  destruct (_ || _) eqn:V; [intros H; discriminate H|].
  destruct (existsb _ c) eqn:U; [intros H; discriminate H|].
  intros H. injection H as <-.
  apply orb_false_elim in V as [Vk Vi].
  split; [reflexivity|].
  split; [now apply String.eqb_neq|]. split; [now apply String.eqb_neq|].
  intros x Hx.
  assert (F : (ApiKey.key x =? ApiKey.key k) || (ApiKey.id x =? ApiKey.id k) = false).
  { destruct (_ || _) eqn:E; [|reflexivity].
    assert (T : existsb (fun y => (ApiKey.key y =? ApiKey.key k)
                                  || (ApiKey.id y =? ApiKey.id k)) c = true).
    { apply existsb_exists. exists x. split; [exact Hx|exact E]. }
    rewrite T in U. discriminate U. }
  apply orb_false_elim in F as [Fk Fi].
  split; now apply String.eqb_neq.
Qed.

Lemma updateFirst_length {A} (p : A -> bool) (u : A -> A) (l : list A) :
  List.length (updateFirst p u l) = List.length l.
Proof.
  induction l as [|a r IH]; simpl; [reflexivity|].
  destruct (p a); simpl; [reflexivity|]. now rewrite IH.
Qed.

Lemma deleteFirst_length {A} (p : A -> bool) (l : list A) :
  List.length (deleteFirst p l) <= List.length l <= S (List.length (deleteFirst p l)).
Proof.
  induction l as [|a r IH]; simpl; [lia|].
  destruct (p a); simpl; lia.
Qed.

Section Handlers.
Context {platform : Platform}.

(** ** Deleting *)

Lemma delete_run (req : request) (identifier : string) (now : Z) (uptime : Q)
  (st : state) :
  authenticate req st = (Done tt, st) ->
  Js.present (params req) = Some identifier ->
  serve DELETE_delete req now uptime st =
  match resolve identifier (files st) with
  | None => (res_status_json 404 (error_body "File not found"), st)
  | Some d =>
      (res_json (message_body "File deleted successfully"),
       set_files (deleteFirst (file_matches (ByOid (File._id d))) (files st)) st)
  end.
Proof.
  intros Ha Hp. unfold serve, handler, delete, respond, bind. rewrite Ha, Hp.
  unfold File_findOneAndDelete, File_findOne, bind, gets, modify, ret, resolve.
  destruct (findOne (file_matches (ByIdOrFileName identifier)) (files st)) as [d|];
    [|reflexivity].
  now destruct (findOne (file_matches (ByOid (File._id d))) (files st)).
Qed.

Lemma delete_key_run (req : request) (id : string) (now : Z) (uptime : Q)
  (st : state) :
  authenticate req st = (Done tt, st) ->
  Js.present (params req) = Some id ->
  serve DELETE_delete_key req now uptime st =
  match findOne (key_matches (ByKeyId id)) (keys st) with
  | None => (res_status_json 400 (error_body "Invalid API Key ID"), st)
  | Some _ =>
      (res_json (message_body "API key deleted successfully"),
       set_keys (deleteFirst (key_matches (ByKeyId id)) (keys st)) st)
  end.
Proof.
  intros Ha Hp. unfold serve, handler, delete_key, respond, bind. rewrite Ha, Hp.
  unfold ApiKey_findOneAndDelete, ApiKey_findOne, bind, gets, modify, ret.
  destruct (findOne _ (keys st)) eqn:F; [reflexivity|].
  rewrite deleteFirst_none by (now apply findOne_none).
  now rewrite set_keys_same.
Qed.

(** ** What one request does to the collections *)

Lemma serve_effect (r : route) (req : request) (now : Z) (uptime : Q) (st : state) :
  effect st (snd (serve r req now uptime st)).
Proof.
  assert (Same : effect st st) by (now apply effect_none).
  assert (Rej : protected r = true ->
                forall e, authenticate req st = (Raised e, st) ->
                effect st (snd (serve r req now uptime st))).
  { intros Hr e He. now rewrite (protected_rejected r req now uptime st e Hr He). }
  destruct r.
  - unfold serve, handler. rewrite validate_run.
    destruct (Js.present (query_otp req)); [|exact Same].
    now destruct (TOTP_validate _ _ _ _ _).
  - exact Same.
  - unfold serve, handler. rewrite create_key_run.
    destruct (Js.present (query_otp req)); [|now apply effect_none].
    destruct (TOTP_validate _ _ _ _ _); [|now apply effect_none].
    destruct (Js.truthy_num _); [|now apply effect_none].
    destruct (ApiKey_save _ _) eqn:E.
    + apply effect_none; simpl; auto.
    + now apply effect_key_saved with (k := ApiKey.mk (objectIds st)
        (drawn_key st) (drawn_key_id st)).
  - destruct (authenticate_cases req st) as [A|[e A]]; [|now apply (Rej eq_refl e)].
    destruct (Js.present (params req)) as [id|] eqn:P.
    + rewrite (delete_key_run req id now uptime st A P).
      destruct (findOne _ (keys st)); [|exact Same].
      now apply effect_key_deleted with (id := id).
    + unfold serve, handler, delete_key, respond, bind. rewrite A, P. exact Same.
  - destruct (authenticate_cases req st) as [A|[e A]]; [|now apply (Rej eq_refl e)].
    unfold serve, handler, list_keys, respond, bind. rewrite A. exact Same.
  - destruct (authenticate_cases req st) as [A|[e A]]; [|now apply (Rej eq_refl e)].
    destruct (file_part req) as [f|] eqn:P.
    + destruct (includes allowedMimeTypes (mimetype f)) eqn:I.
      * rewrite (upload_route req f now uptime st A P I), upload_handler_run. cbv zeta.
        assert (Saved : effect st (snd
          match File_save (File.mk (objectIds st) (upload_id req st)
                             (upload_name req st) (text f)) (files st) with
          | inr c =>
              (res_json (JObj [("id", JStr (upload_id req st))]),
               {| files := c; keys := keys st; objectIds := S (objectIds st);
                  random_calls := 5 + (name_calls req + random_calls st);
                  crypto_calls := crypto_calls st |})
          | inl e =>
              (errorHandler {| statusCode := None; message := driver_message e |},
               {| files := files st; keys := keys st; objectIds := S (objectIds st);
                  random_calls := 5 + (name_calls req + random_calls st);
                  crypto_calls := crypto_calls st |})
          end)).
        { destruct (File_save _ _) eqn:E.
          - apply effect_none; simpl; auto.
          - now apply effect_file_saved with (d := File.mk (objectIds st)
              (upload_id req st) (upload_name req st) (text f)). }
        destruct (findOne _ (files st)); [|exact Saved].
        destruct (overwrite_flag req); [exact Saved|].
        now apply effect_none.
      * unfold serve, handler, upload, respond, bind. rewrite A.
        unfold upload_single. rewrite P, I. exact Same.
    + unfold serve, handler, upload, respond, bind. rewrite A.
      unfold upload_single. rewrite P. exact Same.
  - unfold serve, handler, raw, respond.
    destruct (Js.present (params req)); [|exact Same].
    unfold bind, File_findOne, gets. now destruct (findOne _ (files st)).
  - destruct (authenticate_cases req st) as [A|[e A]]; [|now apply (Rej eq_refl e)].
    unfold serve, handler, list_files, respond, bind. rewrite A. exact Same.
  - destruct (authenticate_cases req st) as [A|[e A]]; [|now apply (Rej eq_refl e)].
    assert (Ed : forall file, effect st (snd (respond (edit_handler req file) st))).
    { intros file. destruct (Js.present (params req)) as [identifier|] eqn:P.
      - destruct file as [f|].
        + rewrite (edit_handler_run req f identifier st P).
          destruct (resolve identifier (files st)); [|exact Same].
          now apply effect_file_updated with (identifier := identifier)
                                             (fileContent := text f).
        + unfold edit_handler, respond. rewrite P. exact Same.
      - unfold edit_handler, respond. rewrite P. exact Same. }
    destruct (file_part req) as [f|] eqn:P.
    + destruct (includes allowedMimeTypes (mimetype f)) eqn:I.
      * rewrite (edit_route req f now uptime st A P I). apply Ed.
      * unfold serve, handler, edit, respond, bind. rewrite A.
        unfold upload_single. rewrite P, I. exact Same.
    + unfold serve, handler, edit, respond, bind. rewrite A.
      unfold upload_single. rewrite P. apply (Ed None).
  - destruct (authenticate_cases req st) as [A|[e A]]; [|now apply (Rej eq_refl e)].
    destruct (Js.present (params req)) as [identifier|] eqn:P.
    + rewrite (delete_run req identifier now uptime st A P).
      destruct (resolve identifier (files st)) as [d|]; [|exact Same].
      now apply effect_file_deleted with (oid := File._id d).
    + unfold serve, handler, delete, respond, bind. rewrite A, P. exact Same.
Qed.

(** X1.  Every request, on every route, leaves both collections as they are,
    or appends to one of them one record that [save] accepted (with the next
    [ObjectId]), or replaces the content of the first document matching an
    identifier, or removes one document or one key.  It never does two of
    these. *)
Theorem one_effect_per_request (r : route) (req : request) (now : Z) (uptime : Q)
  (st : state) :
  let st' := snd (serve r req now uptime st) in
  effect st st' /\
  (files st' = files st \/ keys st' = keys st) /\
  List.length (files st') <= S (List.length (files st)) /\
  List.length (files st) <= S (List.length (files st')) /\
  List.length (keys st') <= S (List.length (keys st)) /\
  List.length (keys st) <= S (List.length (keys st')).
Proof.
  intros st'. pose proof (serve_effect r req now uptime st) as E. fold st' in E.
  split; [exact E|].
  destruct E as [Ef Ek _ | d Es _ Ek _ | i c Ef Ek _ | oid Ef Ek _
                 | k Es _ Ef _ | i Ek Ef _].
  - rewrite Ef, Ek. repeat split; auto.
  - apply File_save_inr in Es as (Es & _). rewrite Es, Ek, length_app. simpl.
    repeat split; auto; lia.
  - rewrite Ef, Ek, updateFirst_length. repeat split; auto.
  - rewrite Ef, Ek. pose proof (deleteFirst_length (file_matches (ByOid oid)) (files st)).
    repeat split; auto; lia.
  - apply ApiKey_save_inr in Es as (Es & _). rewrite Es, Ef, length_app. simpl.
    repeat split; auto; lia.
  - rewrite Ef, Ek.
    pose proof (deleteFirst_length (key_matches (ByKeyId i)) (keys st)).
    repeat split; auto; lia.
Qed.

(** ** Uniqueness of ids and keys *)

Lemma effect_keeps_files_distinct (st st' : state) :
  effect st st' -> files_distinct st -> files_distinct st'.
Proof.
  unfold files_distinct. intros E (Hid & Hoid & Hlt).
  destruct E as [Ef _ Ho | d Es Ed _ Ho | i c Ef _ Ho | oid Ef _ Ho
                 | k _ _ Ef Ho | i _ Ef Ho].
  - rewrite Ef. repeat split; auto. intros d Hd. specialize (Hlt d Hd). lia.
  - apply File_save_inr in Es as (-> & _ & _ & _ & Hfresh).
    rewrite !map_app. simpl. repeat split.
    + apply NoDup_snoc; [exact Hid|].
      intros Hin. apply in_map_iff in Hin as (x & Ex & Hx). now apply (Hfresh x Hx).
    + apply NoDup_snoc; [exact Hoid|].
      intros Hin. apply in_map_iff in Hin as (x & Ex & Hx).
      specialize (Hlt x Hx). lia.
    + intros x Hx. apply in_app_or in Hx as [Hx|[<-|[]]].
      * specialize (Hlt x Hx). lia.
      * lia.
  - rewrite Ef, updateFirst_ids, updateFirst_oids, Ho. repeat split; auto.
    intros d Hd.
    assert (I : In (File._id d) (map File._id (files st))).
    { rewrite <- (updateFirst_oids (file_matches (ByIdOrFileName i)) c).
      now apply in_map. }
    apply in_map_iff in I as (x & Ex & Hx). rewrite <- Ex. now apply Hlt.
  - rewrite Ef, Ho. repeat split.
    + now apply deleteFirst_NoDup_map.
    + now apply deleteFirst_NoDup_map.
    + intros d Hd. apply deleteFirst_incl in Hd. now apply Hlt.
  - rewrite Ef, Ho. repeat split; auto. intros d Hd. specialize (Hlt d Hd). lia.
  - rewrite Ef, Ho. repeat split; auto.
Qed.

Lemma effect_keeps_keys_distinct (st st' : state) :
  effect st st' -> keys_distinct st -> keys_distinct st'.
Proof.
  unfold keys_distinct. intros E (Hkey & Hid & Hoid & Hlt).
  destruct E as [_ Ek Ho | d _ _ Ek Ho | i c _ Ek Ho | oid _ Ek Ho
                 | k Es Ed _ Ho | i Ek _ Ho].
  - rewrite Ek. repeat split; auto. intros k Hk. specialize (Hlt k Hk). lia.
  - rewrite Ek, Ho. repeat split; auto. intros k Hk. specialize (Hlt k Hk). lia.
  - rewrite Ek, Ho. repeat split; auto.
  - rewrite Ek, Ho. repeat split; auto.
  - apply ApiKey_save_inr in Es as (-> & _ & _ & Hfresh).
    rewrite !map_app. simpl. repeat split.
    + apply NoDup_snoc; [exact Hkey|].
      intros Hin. apply in_map_iff in Hin as (x & Ex & Hx).
      now apply (proj1 (Hfresh x Hx)).
    + apply NoDup_snoc; [exact Hid|].
      intros Hin. apply in_map_iff in Hin as (x & Ex & Hx).
      now apply (proj2 (Hfresh x Hx)).
    + apply NoDup_snoc; [exact Hoid|].
      intros Hin. apply in_map_iff in Hin as (x & Ex & Hx).
      specialize (Hlt x Hx). lia.
    + intros x Hx. apply in_app_or in Hx as [Hx|[<-|[]]].
      * specialize (Hlt x Hx). lia.
      * lia.
  - rewrite Ek, Ho. repeat split.
    + now apply deleteFirst_NoDup_map.
    + now apply deleteFirst_NoDup_map.
    + now apply deleteFirst_NoDup_map.
    + intros k Hk. apply deleteFirst_incl in Hk. now apply Hlt.
Qed.

(** X2.  Whatever requests are served, in whatever order and with whatever
    outcome, the stored documents keep pairwise distinct [id]s (and pairwise
    distinct [_id]s): the unique index on [id] is never violated, also by
    uploads with [overwrite=true]. *)
Theorem serve_all_keeps_files_distinct (l : list arrival) (st : state) :
  files_distinct st -> files_distinct (serve_all l st).
Proof.
  revert st. induction l as [|a r IH]; intros st H; [exact H|].
  cbn [serve_all]. apply IH.
  apply (effect_keeps_files_distinct st); [apply serve_effect|exact H].
Qed.

(** X3.  Whatever requests are served, the stored API keys keep pairwise
    distinct secrets ([key]) and pairwise distinct [id]s. *)
Theorem serve_all_keeps_keys_distinct (l : list arrival) (st : state) :
  keys_distinct st -> keys_distinct (serve_all l st).
Proof.
  revert st. induction l as [|a r IH]; intros st H; [exact H|].
  cbn [serve_all]. apply IH.
  apply (effect_keeps_keys_distinct st); [apply serve_effect|exact H].
Qed.

(** ** Deleting a document *)

Lemma NoDup_map_app_head {A B} (f : A -> B) (before after : list A) (d x : A) :
  NoDup (map f (before ++ d :: after)%list) -> In x before -> f x <> f d.
Proof.
  rewrite map_app. simpl. intros N Hx E.
  apply NoDup_remove_2 in N. apply N. apply in_or_app. left.
  rewrite <- E. now apply in_map.
Qed.

(** X4.  An authorised delete by identifier, on a store whose documents have
    distinct [_id]s: when no document has the identifier as [id] or
    [fileName] the answer is 404 "File not found" and nothing changes;
    otherwise exactly the first matching document is removed, every other
    document stays, in order, and the answer is "File deleted successfully". *)
Theorem delete_removes_first_match (req : request) (identifier : string) (now : Z)
  (uptime : Q) (st : state) :
  authenticate req st = (Done tt, st) ->
  Js.present (params req) = Some identifier ->
  NoDup (map File._id (files st)) ->
  (resolve identifier (files st) = None ->
   serve DELETE_delete req now uptime st
   = (res_status_json 404 (error_body "File not found"), st)) /\
  (forall d, resolve identifier (files st) = Some d ->
   exists before after,
     files st = (before ++ d :: after)%list /\
     (forall x, In x before -> file_matches (ByIdOrFileName identifier) x = false) /\
     serve DELETE_delete req now uptime st
     = (res_json (message_body "File deleted successfully"),
        set_files (before ++ after)%list st)).
Proof.
  intros Ha Hp Hn. rewrite (delete_run req identifier now uptime st Ha Hp). split.
  - now intros ->.
  - intros d F. rewrite F.
    destruct (findOne_split _ _ _ F) as (before & after & E & Pd & Hb).
    exists before, after. split; [exact E|]. split; [exact Hb|].
    rewrite E. rewrite deleteFirst_split; [reflexivity| |].
    + intros x Hx. simpl. apply Nat.eqb_neq. rewrite E in Hn.
      now apply (NoDup_map_app_head File._id before after d x).
    + simpl. apply Nat.eqb_refl.
Qed.

(** X5.  After an authorised delete by identifier has succeeded, a raw read of
    the same identifier is answered 404 "File not found", provided the deleted
    document was the only stored document with that identifier as [id] or
    [fileName]. *)
Theorem delete_then_raw_not_found (req req' : request) (identifier : string)
  (now now' : Z) (uptime uptime' : Q) (st : state) (d : File.t) :
  authenticate req st = (Done tt, st) ->
  Js.present (params req) = Some identifier ->
  Js.present (params req') = Some identifier ->
  NoDup (map File._id (files st)) ->
  resolve identifier (files st) = Some d ->
  (forall x, In x (files st) ->
     file_matches (ByIdOrFileName identifier) x = true -> x = d) ->
  let st' := snd (serve DELETE_delete req now uptime st) in
  fst (serve DELETE_delete req now uptime st)
  = res_json (message_body "File deleted successfully") /\
  serve GET_raw req' now' uptime' st'
  = (res_status_json 404 (error_body "File not found"), st').
Proof.
  intros Ha Hp Hp' Hn F U st'. unfold st'.
  rewrite (delete_run req identifier now uptime st Ha Hp), F.
  split; [reflexivity|]. cbn [snd].
  apply raw_read_missing with (identifier := identifier); [exact Hp'|].
  apply findOne_none. intros x Hx. cbn [files set_files] in Hx.
  destruct (file_matches (ByIdOrFileName identifier) x) eqn:M; [|reflexivity].
  exfalso.
  assert (Ix : In x (files st)) by (now apply deleteFirst_incl in Hx).
  assert (Ex : x = d) by (now apply U). subst x.
  destruct (findOne_split _ _ _ F) as (before & after & E & Pd & Hb).
  rewrite E in Hx, Hn.
  rewrite deleteFirst_split in Hx.
  - rewrite map_app in Hn. simpl in Hn. apply NoDup_remove_2 in Hn. apply Hn.
    rewrite <- map_app. now apply in_map.
  - intros y Hy. simpl. apply Nat.eqb_neq.
    now apply (NoDup_map_app_head File._id before after d y).
  - simpl. apply Nat.eqb_refl.
Qed.

(** ** Deleting and creating API keys *)

(** X6.  An authorised key deletion: without an id parameter the answer is
    400 "API Key ID is required"; with the id of no stored key it is 400
    "Invalid API Key ID"; in both cases nothing changes.  Otherwise the first
    key with that id is removed, the others stay, the documents are untouched
    and the answer is "API key deleted successfully". *)
Theorem delete_key_removes_key (req : request) (now : Z) (uptime : Q) (st : state) :
  authenticate req st = (Done tt, st) ->
  (Js.present (params req) = None ->
   serve DELETE_delete_key req now uptime st
   = (res_status_json 400 (error_body "API Key ID is required"), st)) /\
  (forall id, Js.present (params req) = Some id ->
     (forall x, In x (keys st) -> ApiKey.id x <> id) ->
     serve DELETE_delete_key req now uptime st
     = (res_status_json 400 (error_body "Invalid API Key ID"), st)) /\
  (forall id k, Js.present (params req) = Some id ->
     findOne (key_matches (ByKeyId id)) (keys st) = Some k ->
     exists before after,
       keys st = (before ++ k :: after)%list /\
       ApiKey.id k = id /\
       (forall x, In x before -> ApiKey.id x <> id) /\
       serve DELETE_delete_key req now uptime st
       = (res_json (message_body "API key deleted successfully"),
          set_keys (before ++ after)%list st)).
Proof.
  intros Ha. split; [|split].
  - intros Hp. unfold serve, handler, delete_key, respond, bind. now rewrite Ha, Hp.
  - intros id Hp Hid. rewrite (delete_key_run req id now uptime st Ha Hp).
    assert (N : findOne (key_matches (ByKeyId id)) (keys st) = None).
    { apply findOne_none. intros x Hx. simpl. apply String.eqb_neq. now apply Hid. }
    now rewrite N.
  - intros id k Hp F. rewrite (delete_key_run req id now uptime st Ha Hp), F.
    destruct (findOne_split _ _ _ F) as (before & after & E & Pk & Hb).
    exists before, after. split; [exact E|]. split; [|split].
    + simpl in Pk. now apply String.eqb_eq.
    + intros x Hx. apply String.eqb_neq. exact (Hb x Hx).
    + rewrite E, deleteFirst_split; [reflexivity|exact Hb|exact Pk].
Qed.

(** X7.  Once a key has been deleted, its secret opens no protected route any
    more: on a store whose keys have distinct secrets, after a successful
    [DELETE /delete-key/:id], every protected request presenting the secret
    of the deleted key (the deleting caller's own key included) is answered
    401 "Invalid API key" and changes nothing. *)
Theorem deleted_key_is_rejected (req req' : request) (id : string) (k : ApiKey.t)
  (r : route) (now now' : Z) (uptime uptime' : Q) (st : state) :
  authenticate req st = (Done tt, st) ->
  Js.present (params req) = Some id ->
  findOne (key_matches (ByKeyId id)) (keys st) = Some k ->
  NoDup (map ApiKey.key (keys st)) ->
  protected r = true ->
  credential req' = Some (ApiKey.key k) ->
  let st' := snd (serve DELETE_delete_key req now uptime st) in
  serve r req' now' uptime' st'
  = (res_status_json 401 (error_body "Invalid API key"), st').
Proof.
  intros Ha Hp F Hn Hr Hc st'. unfold st'.
  rewrite (delete_key_run req id now uptime st Ha Hp), F. cbn [snd].
  rewrite (protected_rejected r req' now' uptime' _
             (http_error 401 "Invalid API key") Hr); [reflexivity|].
  rewrite authenticate_run, Hc. cbn [keys set_keys].
  destruct (findOne_split _ _ _ F) as (before & after & E & Pk & Hb).
  rewrite E, deleteFirst_split by assumption.
  assert (N : findOne (key_matches (ByKey (ApiKey.key k))) (before ++ after)%list = None).
  { apply findOne_none. intros x Hx. simpl. apply String.eqb_neq. intros Ex.
    rewrite E, map_app in Hn. simpl in Hn. apply NoDup_remove_2 in Hn. apply Hn.
    rewrite <- map_app, <- Ex. now apply in_map. }
  now rewrite N.
Qed.

Lemma deleteFirst_keeps {A} (p : A -> bool) (l : list A) (x : A) :
  p x = false -> In x l -> In x (deleteFirst p l).
Proof.
  intros Px. induction l as [|a r IH]; simpl; [auto|].
  intros [<-|H].
  - rewrite Px. now left.
  - destruct (p a); [exact H|]. right. now apply IH.
Qed.

(** A stored key stays stored through every request but a [DELETE
    /delete-key] of its id. *)
Lemma serve_keeps_key (k : ApiKey.t) (a : arrival) (st : state) :
  spares_key_id (ApiKey.id k) a ->
  In k (keys st) ->
  In k (keys (snd (serve (arrival_route a) (arrival_request a) (arrival_now a)
                     (arrival_uptime a) st))).
Proof.
  destruct a as [r req now uptime]. unfold spares_key_id.
  cbn [arrival_route arrival_request arrival_now arrival_uptime]. intros Hs H.
  assert (Rej : protected r = true ->
                forall e, authenticate req st = (Raised e, st) ->
                In k (keys (snd (serve r req now uptime st)))).
  { intros Hr e He. now rewrite (protected_rejected r req now uptime st e Hr He). }
  destruct r.
  - unfold serve, handler. rewrite validate_run.
    destruct (Js.present (query_otp req)); [|exact H].
    now destruct (TOTP_validate _ _ _ _ _).
  - exact H.
  - unfold serve, handler. rewrite create_key_run.
    destruct (Js.present (query_otp req)); [|exact H].
    destruct (TOTP_validate _ _ _ _ _); [|exact H].
    destruct (Js.truthy_num _); [|exact H].
    destruct (ApiKey_save _ _) as [e|c] eqn:S; [exact H|].
    apply ApiKey_save_inr in S as (-> & _). cbn [snd keys after_key_draws].
    apply in_or_app. now left.
  - destruct (authenticate_cases req st) as [A|[e A]]; [|now apply (Rej eq_refl e)].
    destruct (Js.present (params req)) as [id|] eqn:P.
    + rewrite (delete_key_run req id now uptime st A P).
      destruct (findOne _ (keys st)); [|exact H].
      cbn [snd keys set_keys]. apply deleteFirst_keeps; [|exact H].
      simpl. apply String.eqb_neq. intros E. apply (Hs eq_refl). now rewrite E.
    + unfold serve, handler, delete_key, respond, bind. rewrite A, P. exact H.
  - destruct (authenticate_cases req st) as [A|[e A]]; [|now apply (Rej eq_refl e)].
    unfold serve, handler, list_keys, respond, bind. rewrite A. exact H.
  - destruct (authenticate_cases req st) as [A|[e A]]; [|now apply (Rej eq_refl e)].
    destruct (file_part req) as [f|] eqn:P.
    + destruct (includes allowedMimeTypes (mimetype f)) eqn:I.
      * rewrite (upload_route req f now uptime st A P I), upload_handler_run. cbv zeta.
        destruct (findOne _ (files st)); [destruct (overwrite_flag req); [|exact H]|];
          now destruct (File_save _ _).
      * unfold serve, handler, upload, respond, bind. rewrite A.
        unfold upload_single. rewrite P, I. exact H.
    + unfold serve, handler, upload, respond, bind. rewrite A.
      unfold upload_single. rewrite P. exact H.
  - unfold serve, handler, raw, respond.
    destruct (Js.present (params req)); [|exact H].
    unfold bind, File_findOne, gets. now destruct (findOne _ (files st)).
  - destruct (authenticate_cases req st) as [A|[e A]]; [|now apply (Rej eq_refl e)].
    unfold serve, handler, list_files, respond, bind. rewrite A. exact H.
  - destruct (authenticate_cases req st) as [A|[e A]]; [|now apply (Rej eq_refl e)].
    assert (Ed : forall file, In k (keys (snd (respond (edit_handler req file) st)))).
    { intros file. destruct (Js.present (params req)) as [identifier|] eqn:P.
      - destruct file as [f|].
        + rewrite (edit_handler_run req f identifier st P).
          now destruct (resolve identifier (files st)).
        + unfold edit_handler, respond. rewrite P. exact H.
      - unfold edit_handler, respond. rewrite P. exact H. }
    destruct (file_part req) as [f|] eqn:P.
    + destruct (includes allowedMimeTypes (mimetype f)) eqn:I.
      * rewrite (edit_route req f now uptime st A P I). apply Ed.
      * unfold serve, handler, edit, respond, bind. rewrite A.
        unfold upload_single. rewrite P, I. exact H.
    + unfold serve, handler, edit, respond, bind. rewrite A.
      unfold upload_single. rewrite P. apply (Ed None).
  - destruct (authenticate_cases req st) as [A|[e A]]; [|now apply (Rej eq_refl e)].
    destruct (Js.present (params req)) as [identifier|] eqn:P.
    + rewrite (delete_run req identifier now uptime st A P).
      now destruct (resolve identifier (files st)).
    + unfold serve, handler, delete, respond, bind. rewrite A, P. exact H.
Qed.

Lemma serve_all_keeps_key (k : ApiKey.t) (l : list arrival) (st : state) :
  Forall (spares_key_id (ApiKey.id k)) l ->
  In k (keys st) ->
  In k (keys (serve_all l st)).
Proof.
  revert st. induction l as [|a r IH]; intros st Hl H; [exact H|].
  inversion Hl as [|x m Ha Hr]; subst. cbn [serve_all].
  apply IH; [exact Hr|]. now apply serve_keeps_key.
Qed.

Lemma stored_key_authenticates (k : ApiKey.t) (req : request) (st : state) :
  In k (keys st) ->
  credential req = Some (ApiKey.key k) ->
  authenticate req st = (Done tt, st).
Proof.
  intros H Hc. rewrite authenticate_run, Hc.
  destruct (findOne _ (keys st)) eqn:F; [reflexivity|].
  apply findOne_none with (x := k) in F; [|exact H].
  simpl in F. rewrite String.eqb_refl in F. discriminate F.
Qed.

(** X8.  A key handed out by [POST /create-key] opens the gate: when key
    creation answers 200, the response is the one-element array
    [[{id, key, __v: 0}]] of the key that was appended to the collection, and
    from then on, through every sequence of later requests none of which is a
    [DELETE /delete-key] of that key's id, [authenticate] lets through every
    request presenting that [key] in the header, or in the query when the
    header is absent or empty. *)
Theorem created_key_authenticates (req : request) (now : Z) (uptime : Q)
  (st st' : state) (r : response) :
  serve POST_create_key req now uptime st = (r, st') ->
  status r = 200 ->
  exists k,
    keys st' = (keys st ++ [k])%list /\
    files st' = files st /\
    body r = JArr [JObj [("id", JStr (ApiKey.id k)); ("key", JStr (ApiKey.key k));
                         ("__v", JNum 0)]] /\
    (forall req', credential req' = Some (ApiKey.key k) ->
       authenticate req' st' = (Done tt, st')) /\
    (forall req', headers_apikey req' = Some (ApiKey.key k) ->
       credential req' = Some (ApiKey.key k)) /\
    (forall req', Js.present (headers_apikey req') = None ->
       query_apiKey req' = Some (ApiKey.key k) ->
       credential req' = Some (ApiKey.key k)) /\
    (forall later req',
       Forall (spares_key_id (ApiKey.id k)) later ->
       credential req' = Some (ApiKey.key k) ->
       authenticate req' (serve_all later st') = (Done tt, serve_all later st')).
Proof.
  unfold serve, handler. rewrite create_key_run.
  destruct (Js.present (query_otp req));
    [|intros H Hs; injection H as <- _; cbv in Hs; discriminate Hs].
  destruct (TOTP_validate _ _ _ _ _);
    [|intros H Hs; injection H as <- _; cbv in Hs; discriminate Hs].
  destruct (Js.truthy_num _); [|intros H Hs; injection H as <- _; cbv in Hs; discriminate Hs].
  destruct (ApiKey_save _ _) as [e|c] eqn:S;
    [intros H Hs; injection H as <- _; cbv in Hs; discriminate Hs|].
  intros H _. injection H as <- <-.
  apply ApiKey_save_inr in S as (-> & Nk & _ & _).
  eexists. split; [reflexivity|]. split; [reflexivity|]. split; [reflexivity|].
  cbn [ApiKey.key ApiKey.id] in *.
  set (key := drawn_key st) in *.
  assert (P : Js.present (Some key) = Some key).
  { apply present_Some. split; [reflexivity|exact Nk]. }
  split; [|split; [|split]].
  - intros req' Hc. rewrite authenticate_run, Hc. cbn [keys after_key_draws].
    rewrite findOne_app.
    destruct (findOne _ (keys st)); [reflexivity|].
    unfold findOne. simpl. now rewrite String.eqb_refl.
  - intros req' Hh. unfold credential, Js.or.
    assert (T : Js.truthy (headers_apikey req') = true).
    { rewrite Hh. unfold Js.truthy. now rewrite (proj2 (String.eqb_neq _ _) Nk). }
    rewrite T, Hh. exact P.
  - intros req' Hh Hq. unfold credential, Js.or.
    unfold Js.present in Hh.
    destruct (Js.truthy (headers_apikey req')) eqn:T.
    + rewrite Hh in T. discriminate T.
    + rewrite Hq. exact P.
  - intros later req' Hl Hc.
    apply stored_key_authenticates with (k := ApiKey.mk (objectIds st) key (drawn_key_id st));
      [|exact Hc].
    apply serve_all_keeps_key; [exact Hl|].
    cbn [keys after_key_draws]. apply in_or_app. right. now left.
Qed.

(** ** Generated identifiers *)

Lemma string_forall_append (p : ascii -> bool) (a b : string) :
  string_forall p (a ++ b) = string_forall p a && string_forall p b.
Proof.
  induction a as [|c a IH]; simpl; [reflexivity|]. now rewrite IH, andb_assoc.
Qed.

Lemma charAt_characters_letter (k : Z) :
  (0 <= k < 52)%Z -> string_forall is_letter (Js.charAt characters k) = true.
Proof.
  intros K. unfold Js.charAt.
  assert (M : Z.to_nat k < 52) by lia.
  assert (G : forall m, m < 52 ->
            string_forall is_letter
              match String.get m characters with
              | Some c => String c EmptyString
              | None => EmptyString
              end = true).
  { intros m Hm. unfold characters.
    do 52 (destruct m as [|m]; [reflexivity|]). lia. }
  destruct k as [|p|p]; [| |lia]; now apply G.
Qed.

Lemma randomId_loop_letters (n call : nat) :
  random_in_unit_interval platform ->
  string_forall is_letter (randomId_loop n call) = true.
Proof.
  intros R. revert call. induction n as [|n IH]; intros call; [reflexivity|].
  cbn [randomId_loop]. rewrite string_forall_append, IH, andb_true_r.
  destruct (R call) as [R0 R1].
  change (Z.of_nat (String.length characters)) with 52%Z.
  apply charAt_characters_letter. now apply floor_mul_range.
Qed.

(** X9.  With [Math.random] in its range, [generateRandomId(n)] returns a
    string of exactly [n] characters, each a letter of [A-Za-z], after [n]
    calls of [Math.random]; the collections are not touched. *)
Theorem generateRandomId_letters (n : nat) (st : state) :
  random_in_unit_interval platform ->
  exists s st',
    generateRandomId n st = (Done s, st') /\
    String.length s = n /\
    string_forall is_letter s = true /\
    random_calls st' = n + random_calls st /\
    files st' = files st /\ keys st' = keys st.
Proof.
  intros R. eexists _, _. split; [reflexivity|].
  split; [now apply randomId_loop_length|].
  split; [now apply randomId_loop_letters|]. repeat split.
Qed.

Lemma hex_value_hex_digit (x : N) : (x < 16)%N -> hex_value (hex_digit x) = Some x.
Proof.
  intros H.
  assert (E : x = N.of_nat (N.to_nat x)) by (now rewrite N2Nat.id).
  assert (B : N.to_nat x < 16) by lia.
  rewrite E. generalize dependent (N.to_nat x). intros m _ B.
  do 16 (destruct m as [|m]; [reflexivity|]). lia.
Qed.

Lemma hex_digit_is_hex (x : N) : (x < 16)%N -> is_hex_digit (hex_digit x) = true.
Proof. intros H. unfold is_hex_digit. now rewrite hex_value_hex_digit. Qed.

Lemma byte_nibbles (b : byte) :
  (Byte.to_N b / 16 < 16)%N /\ (Byte.to_N b mod 16 < 16)%N.
Proof.
  pose proof (Byte.to_N_bounded b). split.
  - apply N.Div0.div_lt_upper_bound. lia.
  - apply N.mod_lt. discriminate.
Qed.

Lemma hex_of_byte_injective (a b : byte) : hex_of_byte a = hex_of_byte b -> a = b.
Proof.
  unfold hex_of_byte. intros H. injection H as Hh Hl.
  destruct (byte_nibbles a) as [A1 A2]. destruct (byte_nibbles b) as [B1 B2].
  apply (f_equal hex_value) in Hh, Hl.
  rewrite !hex_value_hex_digit in Hh, Hl by assumption.
  injection Hh as Hh. injection Hl as Hl.
  assert (E : Byte.to_N a = Byte.to_N b).
  { rewrite (N.div_mod (Byte.to_N a) 16), (N.div_mod (Byte.to_N b) 16) by discriminate.
    now rewrite Hh, Hl. }
  pose proof (Byte.of_to_N a) as Ea. pose proof (Byte.of_to_N b) as Eb.
  rewrite E in Ea. rewrite Ea in Eb. now injection Eb.
Qed.

Lemma hex_of_bytes_injective (l1 l2 : list byte) :
  hex_of_bytes l1 = hex_of_bytes l2 -> l1 = l2.
Proof.
  revert l2. induction l1 as [|a l1 IH]; intros [|b l2] H; try reflexivity;
    try discriminate H.
  cbn [hex_of_bytes] in H. unfold hex_of_byte in H. cbn [append] in H.
  injection H as Hh Hl Hr.
  f_equal; [|now apply IH].
  apply hex_of_byte_injective. unfold hex_of_byte. now rewrite Hh, Hl.
Qed.

Lemma hex_of_bytes_format (l : list byte) :
  String.length (hex_of_bytes l) = 2 * List.length l /\
  string_forall is_hex_digit (hex_of_bytes l) = true.
Proof.
  induction l as [|b l [IHl IHh]]; [split; reflexivity|].
  cbn [hex_of_bytes]. rewrite length_append, string_forall_append, IHl, IHh.
  destruct (byte_nibbles b) as [B1 B2]. split.
  - simpl. lia.
  - unfold hex_of_byte. cbn [string_forall].
    now rewrite !hex_digit_is_hex by assumption.
Qed.

(** X10.  [generateApiKey] returns two lower-case hexadecimal digits for
    every byte [crypto.randomBytes(16)] delivered, after one call of it, and
    leaves the collections alone; buffers that differ give keys that
    differ. *)
Theorem generateApiKey_hex (st : state) :
  exists key st',
    generateApiKey st = (Done key, st') /\
    String.length key = 2 * List.length (randomBytes (crypto_calls st) 16) /\
    string_forall is_hex_digit key = true /\
    crypto_calls st' = S (crypto_calls st) /\
    files st' = files st /\ keys st' = keys st /\
    (forall st2 key2 st2',
       generateApiKey st2 = (Done key2, st2') -> key2 = key ->
       randomBytes (crypto_calls st2) 16 = randomBytes (crypto_calls st) 16).
Proof.
  eexists _, _. split; [reflexivity|].
  destruct (hex_of_bytes_format (randomBytes (crypto_calls st) 16)) as [L F].
  split; [exact L|]. split; [exact F|]. repeat split.
  intros st2 key2 st2' H E. unfold generateApiKey in H. injection H as H _.
  rewrite <- H in E. now apply hex_of_bytes_injective.
Qed.

Lemma of_hex_uint_acc_lower (l : Hexadecimal.uint) (acc : positive) :
  (16 ^ N.of_nat (Hexadecimal.nb_digits l) * Npos acc
   <= Npos (Pos.of_hex_uint_acc l acc))%N.
Proof.
  revert acc. induction l; intros acc; cbn [Pos.of_hex_uint_acc Hexadecimal.nb_digits];
    [simpl; lia | ..];
    (eapply N.le_trans; [|apply IHl]);
    rewrite Nat2N.inj_succ, N.pow_succ_r';
    generalize (16 ^ N.of_nat (Hexadecimal.nb_digits l))%N; intros p; nia.
Qed.

(** A numeral without leading zeros is zero or at least [16 ^ (digits - 1)]. *)
Lemma unorm_fixed (d : Hexadecimal.uint) :
  Hexadecimal.unorm d = d ->
  d = Hexadecimal.zero \/
  (16 ^ N.of_nat (Hexadecimal.nb_digits d - 1) <= N.of_hex_uint d)%N.
Proof.
  intros U.
  destruct d; cbn [Hexadecimal.nb_digits Nat.sub N.of_hex_uint Pos.of_hex_uint];
    rewrite ?Nat.sub_0_r;
    try (right; eapply N.le_trans; [|apply of_hex_uint_acc_lower]; lia).
  - discriminate U.
  - left. rewrite HexadecimalFacts.unorm_D0 in U.
    unfold Hexadecimal.unorm in U.
    destruct (Hexadecimal.nzhead d) eqn:E;
      try (exfalso; apply (HexadecimalFacts.nzhead_nonzero d d); rewrite E; exact U).
    now injection U as <-.
Qed.

Lemma to_hex_uint_normal (n : N) :
  Hexadecimal.unorm (N.to_hex_uint n) = N.to_hex_uint n.
Proof.
  rewrite <- HexadecimalN.Unsigned.to_of, HexadecimalN.Unsigned.of_to. reflexivity.
Qed.

Lemma to_hex_uint_digits (n : N) :
  (n < 16 ^ 6)%N -> 1 <= Hexadecimal.nb_digits (N.to_hex_uint n) <= 6.
Proof.
  intros H. pose proof (to_hex_uint_normal n) as U.
  destruct (unorm_fixed _ U) as [Z|L].
  - rewrite Z. simpl. lia.
  - rewrite HexadecimalN.Unsigned.of_to in L.
    assert (P : Hexadecimal.nb_digits (N.to_hex_uint n) <> 0).
    { intros E. apply HexadecimalFacts.nb_digits_0 in E.
      rewrite E in U. discriminate U. }
    split; [lia|].
    destruct (le_lt_dec (Hexadecimal.nb_digits (N.to_hex_uint n)) 6) as [K|K];
      [exact K|].
    exfalso.
    assert (M : (16 ^ 6
                 <= 16 ^ N.of_nat (Hexadecimal.nb_digits (N.to_hex_uint n) - 1))%N).
    { apply N.pow_le_mono_r; lia. }
    lia.
Qed.

Lemma string_of_uint_format (d : Hexadecimal.uint) :
  String.length (NilEmpty.string_of_uint d) = Hexadecimal.nb_digits d /\
  string_forall is_hex_digit (NilEmpty.string_of_uint d) = true.
Proof.
  induction d as [|d [IHl IHh]|d [IHl IHh]|d [IHl IHh]|d [IHl IHh]|d [IHl IHh]
                  |d [IHl IHh]|d [IHl IHh]|d [IHl IHh]|d [IHl IHh]|d [IHl IHh]
                  |d [IHl IHh]|d [IHl IHh]|d [IHl IHh]|d [IHl IHh]|d [IHl IHh]
                  |d [IHl IHh]];
    cbn [NilEmpty.string_of_uint String.length Hexadecimal.nb_digits string_forall];
    rewrite ?IHl, ?IHh; split; reflexivity.
Qed.

Lemma toString16_nonnil (n : N) :
  Js.toString16 n = NilEmpty.string_of_uint (N.to_hex_uint n).
Proof.
  unfold Js.toString16, NilZero.string_of_uint.
  destruct (N.to_hex_uint n) eqn:E; try reflexivity.
  pose proof (to_hex_uint_normal n) as U. rewrite E in U. discriminate U.
Qed.

(** [n.toString(16)] of different numbers differ. *)
Lemma toString16_injective (n m : N) : Js.toString16 n = Js.toString16 m -> n = m.
Proof.
  rewrite !toString16_nonnil. intros H.
  apply (f_equal NilEmpty.uint_of_string) in H. rewrite !NilEmpty.usu in H.
  injection H as H. now apply HexadecimalN.Unsigned.to_uint_inj.
Qed.

Lemma toString16_format (n : N) :
  (n < 16 ^ 6)%N ->
  1 <= String.length (Js.toString16 n) <= 6 /\
  string_forall is_hex_digit (Js.toString16 n) = true.
Proof.
  intros H. rewrite toString16_nonnil.
  destruct (string_of_uint_format (N.to_hex_uint n)) as [L F].
  rewrite L. split; [now apply to_hex_uint_digits|exact F].
Qed.

Lemma repeat_char_format (c : ascii) (p : ascii -> bool) (n : nat) :
  p c = true ->
  String.length (Js.repeat_char c n) = n /\ string_forall p (Js.repeat_char c n) = true.
Proof.
  intros Hc. induction n as [|n [IHl IHf]]; [split; reflexivity|].
  simpl. now rewrite IHl, IHf, Hc.
Qed.

Lemma floor_mul_key_range (r : Q) :
  (0 <= r)%Q -> (r <= Js.below_one)%Q ->
  (0 <= Js.floor_mul r 16777215 < 16777215)%Z.
Proof.
  intros R0 R1. apply (floor_mul_double_bounds r 16777215 24); try assumption; try lia.
  - unfold Qle; simpl; lia.
  - unfold Qlt; simpl; lia.
Qed.

(** X11.  With [Math.random] in its range, [generateApiKeyID] returns ["0x"]
    followed by exactly six lower-case hexadecimal digits, after one call of
    [Math.random]; the digits are never ["ffffff"], since the number drawn is
    below [0xffffff]. *)
Theorem generateApiKeyID_format (st : state) :
  random_in_unit_interval platform ->
  exists digits st',
    generateApiKeyID st = (Done ("0x" ++ digits), st') /\
    String.length digits = 6 /\
    string_forall is_hex_digit digits = true /\
    digits <> "ffffff" /\
    random_calls st' = S (random_calls st) /\
    files st' = files st /\ keys st' = keys st.
Proof.
  intros R. destruct (R (random_calls st)) as [R0 R1].
  pose proof (floor_mul_key_range (Math_random (random_calls st)) R0 R1) as B.
  set (n := Z.to_N (Js.floor_mul (Math_random (random_calls st)) 16777215)).
  assert (Bn : (n < 16777215)%N) by (unfold n; lia).
  destruct (toString16_format n) as [[L1 L6] F]; [simpl; lia|].
  exists (Js.padStart (Js.toString16 n) 6 "0"). eexists.
  split; [reflexivity|].
  unfold Js.padStart.
  destruct (repeat_char_format "0" is_hex_digit (6 - String.length (Js.toString16 n))
              eq_refl) as [PL PF].
  split; [rewrite length_append, PL; lia|].
  split; [now rewrite string_forall_append, PF, F|].
  split; [|repeat split].
  intros E.
  destruct (Nat.eq_dec (String.length (Js.toString16 n)) 6) as [L|L].
  - rewrite L in E. cbn [Nat.sub Js.repeat_char append] in E.
    assert (N : n = 16777215%N) by (apply toString16_injective; rewrite E; reflexivity).
    lia.
  - destruct (6 - String.length (Js.toString16 n)) as [|k] eqn:K; [lia|].
    cbn [Js.repeat_char append] in E. discriminate E.
Qed.

(** ** Failures *)

Lemma authenticate_three_cases (req : request) (st : state) :
  authenticate req st = (Done tt, st) \/
  authenticate req st = (Raised (http_error 401 "API key is required"), st) \/
  authenticate req st = (Raised (http_error 401 "Invalid API key"), st).
Proof.
  rewrite authenticate_run.
  destruct (credential req) as [k|]; [|now right; left].
  destruct (findOne _ (keys st)); [now left|now right; right].
Qed.

Ltac status_in_list :=
  cbn [In route_failures]; repeat (first [left; reflexivity | right]).

Ltac clean_failure :=
  right; split;
  [ split; [status_in_list | eexists; split; [reflexivity | cbv; discriminate]]
  | split; reflexivity ].

(** An error without a status code is answered with 500 and its message, or
    'Internal Server Error' when it has none. *)
Lemma thrown_failure (l : list nat) (m : string) :
  In 500 l ->
  failure l (errorHandler {| statusCode := None; message := m |}).
Proof.
  intros H. split; [exact H|].
  unfold errorHandler. cbn [message body res_status_json].
  destruct (String.eqb_spec m EmptyString) as [E|E].
  - eexists. split; [reflexivity|]. discriminate.
  - eexists. split; [reflexivity|]. exact E.
Qed.

Lemma driver_failure (l : list nat) (e : storage_error) :
  In 500 l ->
  failure l (errorHandler {| statusCode := None; message := driver_message e |}).
Proof. apply thrown_failure. Qed.

(** X12.  Every response is a success with status 200 or a failure: the
    status is one of those the route can fail with (never anything else; the
    health route cannot fail; a throw of the OTP library is a 500), the body
    is [{ error: message }] with a message that is not empty, and neither
    collection has changed: a failed request stores, changes and deletes
    nothing. *)
Theorem failure_changes_nothing (r : route) (req : request) (now : Z) (uptime : Q)
  (st : state) :
  status (fst (serve r req now uptime st)) = 200 \/
  (failure (route_failures r) (fst (serve r req now uptime st)) /\
   files (snd (serve r req now uptime st)) = files st /\
   keys (snd (serve r req now uptime st)) = keys st).
Proof.
  assert (Rej : protected r = true -> In 401 (route_failures r) ->
                authenticate req st <> (Done tt, st) ->
                failure (route_failures r) (fst (serve r req now uptime st)) /\
                files (snd (serve r req now uptime st)) = files st /\
                keys (snd (serve r req now uptime st)) = keys st).
  { intros Hr H401 Hn.
    destruct (authenticate_three_cases req st) as [A|[A|A]]; [contradiction| |];
      rewrite (protected_rejected r req now uptime st _ Hr A);
      (split; [split; [exact H401|eexists; split; [reflexivity|cbv; discriminate]]
              |split; reflexivity]). }
  assert (Auth : authenticate req st = (Done tt, st) \/
                 authenticate req st <> (Done tt, st)).
  { destruct (authenticate_three_cases req st) as [A|[A|A]]; [now left| |];
      right; rewrite A; intros H; discriminate H. }
  destruct r.
  - unfold serve, handler. rewrite validate_run.
    destruct (Js.present (query_otp req)); [|clean_failure].
    destruct (TOTP_validate _ _ _ _ _); [now left|].
    right. split; [|split; reflexivity].
    apply thrown_failure. status_in_list.
  - now left.
  - unfold serve, handler. rewrite create_key_run.
    destruct (Js.present (query_otp req)); [|clean_failure].
    destruct (TOTP_validate _ _ _ _ _);
      [|right; split; [apply thrown_failure; status_in_list|split; reflexivity]].
    destruct (Js.truthy_num _); [|clean_failure].
    destruct (ApiKey_save _ _); [|now left].
    right. split; [|split; reflexivity].
    apply driver_failure. status_in_list.
  - destruct Auth as [A|A]; [|right; apply Rej; [reflexivity|status_in_list|exact A]].
    destruct (Js.present (params req)) as [id|] eqn:P.
    + rewrite (delete_key_run req id now uptime st A P).
      destruct (findOne _ (keys st)); [now left|clean_failure].
    + unfold serve, handler, delete_key, respond, bind. rewrite A, P. clean_failure.
  - destruct Auth as [A|A]; [|right; apply Rej; [reflexivity|status_in_list|exact A]].
    unfold serve, handler, list_keys, respond, bind. rewrite A. now left.
  - destruct Auth as [A|A]; [|right; apply Rej; [reflexivity|status_in_list|exact A]].
    destruct (file_part req) as [f|] eqn:P.
    + destruct (includes allowedMimeTypes (mimetype f)) eqn:I.
      * rewrite (upload_route req f now uptime st A P I), upload_handler_run. cbv zeta.
        assert (Saved :
          let res :=
            match File_save (File.mk (objectIds st) (upload_id req st)
                               (upload_name req st) (text f)) (files st) with
            | inr c =>
                (res_json (JObj [("id", JStr (upload_id req st))]),
                 {| files := c; keys := keys st; objectIds := S (objectIds st);
                    random_calls := 5 + (name_calls req + random_calls st);
                    crypto_calls := crypto_calls st |})
            | inl e =>
                (errorHandler {| statusCode := None; message := driver_message e |},
                 {| files := files st; keys := keys st; objectIds := S (objectIds st);
                    random_calls := 5 + (name_calls req + random_calls st);
                    crypto_calls := crypto_calls st |})
            end in
          status (fst res) = 200 \/
          (failure (route_failures POST_upload) (fst res) /\
           files (snd res) = files st /\ keys (snd res) = keys st)).
        { cbv zeta. destruct (File_save _ _); [|now left].
          right. split; [|split; reflexivity].
          apply driver_failure. status_in_list. }
        destruct (findOne _ (files st)); [|exact Saved].
        destruct (overwrite_flag req); [exact Saved|clean_failure].
      * unfold serve, handler, upload, respond, bind. rewrite A.
        unfold upload_single. rewrite P, I. clean_failure.
    + unfold serve, handler, upload, respond, bind. rewrite A.
      unfold upload_single. rewrite P. clean_failure.
  - unfold serve, handler, raw, respond.
    destruct (Js.present (params req)); [|clean_failure].
    unfold bind, File_findOne, gets.
    destruct (findOne _ (files st)); [now left|clean_failure].
  - destruct Auth as [A|A]; [|right; apply Rej; [reflexivity|status_in_list|exact A]].
    unfold serve, handler, list_files, respond, bind. rewrite A. now left.
  - destruct Auth as [A|A]; [|right; apply Rej; [reflexivity|status_in_list|exact A]].
    assert (Ed : forall file,
      status (fst (respond (edit_handler req file) st)) = 200 \/
      (failure (route_failures PUT_edit) (fst (respond (edit_handler req file) st)) /\
       files (snd (respond (edit_handler req file) st)) = files st /\
       keys (snd (respond (edit_handler req file) st)) = keys st)).
    { intros file. destruct (Js.present (params req)) as [identifier|] eqn:P.
      - destruct file as [f|].
        + rewrite (edit_handler_run req f identifier st P).
          destruct (resolve identifier (files st)); [now left|clean_failure].
        + unfold edit_handler, respond. rewrite P. clean_failure.
      - unfold edit_handler, respond. rewrite P. clean_failure. }
    destruct (file_part req) as [f|] eqn:P.
    + destruct (includes allowedMimeTypes (mimetype f)) eqn:I.
      * rewrite (edit_route req f now uptime st A P I). apply Ed.
      * unfold serve, handler, edit, respond, bind. rewrite A.
        unfold upload_single. rewrite P, I. clean_failure.
    + unfold serve, handler, edit, respond, bind. rewrite A.
      unfold upload_single. rewrite P. apply (Ed None).
  - destruct Auth as [A|A]; [|right; apply Rej; [reflexivity|status_in_list|exact A]].
    destruct (Js.present (params req)) as [identifier|] eqn:P.
    + rewrite (delete_run req identifier now uptime st A P).
      destruct (resolve identifier (files st)); [now left|clean_failure].
    + unfold serve, handler, delete, respond, bind. rewrite A, P. clean_failure.
Qed.

(** X13.  A GET request never changes anything: on the five GET routes
    (validate, health, list-keys, raw, list) the whole state after the request
    is the state before it, whatever the request and its outcome. *)
Theorem GET_changes_nothing (r : route) (req : request) (now : Z) (uptime : Q)
  (st : state) :
  is_GET r = true ->
  snd (serve r req now uptime st) = st.
Proof.
  intros G.
  assert (Rej : protected r = true ->
                forall e, authenticate req st = (Raised e, st) ->
                snd (serve r req now uptime st) = st).
  { intros Hr e He. now rewrite (protected_rejected r req now uptime st e Hr He). }
  destruct r; try discriminate G.
  - unfold serve, handler. rewrite validate_run.
    destruct (Js.present (query_otp req)); [|reflexivity].
    now destruct (TOTP_validate _ _ _ _ _).
  - reflexivity.
  - destruct (authenticate_cases req st) as [A|[e A]]; [|now apply (Rej eq_refl e)].
    unfold serve, handler, list_keys, respond, bind. now rewrite A.
  - unfold serve, handler, raw, respond.
    destruct (Js.present (params req)); [|reflexivity].
    unfold bind, File_findOne, gets. now destruct (findOne _ (files st)).
  - destruct (authenticate_cases req st) as [A|[e A]]; [|now apply (Rej eq_refl e)].
    unfold serve, handler, list_files, respond, bind. now rewrite A.
Qed.

(** ** The file filter *)

(** X14.  An authorised upload or edit whose file part has a MIME type other
    than the six allowed ones is answered with status 500 (the filter's error
    has no status code) and the message "Only JSON, TXT, XML, and YAML files
    are allowed"; the handler does not run and the state is unchanged. *)
Theorem fileFilter_rejects (r : route) (req : request) (f : uploaded) (now : Z)
  (uptime : Q) (st : state) :
  r = POST_upload \/ r = PUT_edit ->
  authenticate req st = (Done tt, st) ->
  file_part req = Some f ->
  includes allowedMimeTypes (mimetype f) = false ->
  serve r req now uptime st
  = (res_status_json 500
       (error_body "Only JSON, TXT, XML, and YAML files are allowed"), st).
Proof.
  intros [-> | ->] A P I;
    unfold serve, handler, upload, edit, respond, bind; rewrite A;
    unfold upload_single; now rewrite P, I.
Qed.

(** ** Edit, then read *)

Lemma findOne_updateFirst {A} (p : A -> bool) (u : A -> A) (l : list A) :
  (forall x, p (u x) = p x) ->
  findOne p (updateFirst p u l) = option_map u (findOne p l).
Proof.
  intros H. unfold findOne. induction l as [|a r IH]; simpl; [reflexivity|].
  destruct (p a) eqn:Pa; simpl.
  - now rewrite H, Pa.
  - now rewrite Pa.
Qed.

(** X15.  After an authorised edit of an identifier that matches a stored
    document, with an accepted file, the answer is "File updated
    successfully" and a raw read of the same identifier returns the new
    content. *)
Theorem edit_then_raw (req req' : request) (file : uploaded) (identifier : string)
  (now now' : Z) (uptime uptime' : Q) (st : state) (d : File.t) :
  authenticate req st = (Done tt, st) ->
  file_part req = Some file ->
  includes allowedMimeTypes (mimetype file) = true ->
  Js.present (params req) = Some identifier ->
  Js.present (params req') = Some identifier ->
  resolve identifier (files st) = Some d ->
  let st' := snd (serve PUT_edit req now uptime st) in
  fst (serve PUT_edit req now uptime st)
  = res_json (message_body "File updated successfully") /\
  serve GET_raw req' now' uptime' st' = (res_json (JStr (text file)), st').
Proof.
  intros A P I Hp Hp' F st'. unfold st'.
  rewrite (edit_route req file now uptime st A P I),
    (edit_handler_run req file identifier st Hp), F.
  split; [reflexivity|]. cbn [snd].
  unfold serve, handler, raw, respond. rewrite Hp'.
  unfold bind, File_findOne, gets. cbn [files set_files].
  rewrite findOne_updateFirst by reflexivity.
  unfold resolve in F. rewrite F. reflexivity.
Qed.

(** ** The name of an upload *)

Lemma explicit_name_cases (req : request) :
  explicit_name req =
  match Js.present (query_fileName req) with
  | Some q => Some q
  | None => Js.present (body_fileName req)
  end.
Proof.
  unfold explicit_name, Js.or, Js.present.
  destruct (Js.truthy (query_fileName req)) eqn:T; cbv iota; [|reflexivity].
  rewrite T. destruct (query_fileName req); [reflexivity|discriminate T].
Qed.

Lemma upload_saved (req : request) (file : uploaded) (st st' : state) (i : string) :
  respond (upload_handler req (Some file)) st = (res_json (JObj [("id", JStr i)]), st') ->
  i = upload_id req st /\
  File_save (File.mk (objectIds st) i (upload_name req st) (text file)) (files st)
  = inr (files st') /\
  random_calls st' = 5 + (name_calls req + random_calls st).
Proof.
  rewrite upload_handler_run. cbv zeta.
  assert (Saved :
    match File_save (File.mk (objectIds st) (upload_id req st) (upload_name req st)
                       (text file)) (files st) with
    | inr c =>
        (res_json (JObj [("id", JStr (upload_id req st))]),
         {| files := c; keys := keys st; objectIds := S (objectIds st);
            random_calls := 5 + (name_calls req + random_calls st);
            crypto_calls := crypto_calls st |})
    | inl e =>
        (errorHandler {| statusCode := None; message := driver_message e |},
         {| files := files st; keys := keys st; objectIds := S (objectIds st);
            random_calls := 5 + (name_calls req + random_calls st);
            crypto_calls := crypto_calls st |})
    end = (res_json (JObj [("id", JStr i)]), st') ->
    i = upload_id req st /\
    File_save (File.mk (objectIds st) i (upload_name req st) (text file)) (files st)
    = inr (files st') /\
    random_calls st' = 5 + (name_calls req + random_calls st)).
  { destruct (File_save _ _) as [e|c] eqn:S; [intros H; discriminate H|].
    intros H. injection H as Hi Hs. subst i. rewrite <- Hs. cbn [files random_calls].
    repeat split. exact S. }
  destruct (findOne _ (files st)); [|exact Saved].
  destruct (overwrite_flag req); [exact Saved|].
  intros H. discriminate H.
Qed.

(** X16.  A successful upload appends one record whose name and content are
    not empty.  The name is [req.query.fileName] when that is a non-empty
    string, else [req.body.fileName] when that is one, else the 22 characters
    generated from the next 22 calls of [Math.random]; the id is generated
    from the 5 calls that follow. *)
Theorem upload_name_choice (req : request) (file : uploaded) (st st' : state)
  (i : string) :
  respond (upload_handler req (Some file)) st = (res_json (JObj [("id", JStr i)]), st') ->
  exists n,
    files st' = (files st ++ [File.mk (objectIds st) i n (text file)])%list /\
    n <> EmptyString /\ text file <> EmptyString /\
    (forall q, Js.present (query_fileName req) = Some q ->
       n = q /\ i = randomId_loop 5 (random_calls st)) /\
    (forall b, Js.present (query_fileName req) = None ->
       Js.present (body_fileName req) = Some b ->
       n = b /\ i = randomId_loop 5 (random_calls st)) /\
    (Js.present (query_fileName req) = None ->
     Js.present (body_fileName req) = None ->
     n = randomId_loop 22 (random_calls st) /\
     i = randomId_loop 5 (22 + random_calls st)).
Proof.
  intros H. apply upload_saved in H as (Ei & S & _).
  apply File_save_inr in S as (E & _ & Nn & Nc & _).
  exists (upload_name req st). cbn [File.fileName File.fileContent] in Nn, Nc.
  split; [exact E|]. split; [exact Nn|]. split; [exact Nc|].
  unfold upload_id, name_calls, upload_name in *. rewrite explicit_name_cases in *.
  split; [|split].
  - intros q Hq. rewrite Hq in *. now split.
  - intros b Hq Hb. rewrite Hq, Hb in *. now split.
  - intros Hq Hb. rewrite Hq, Hb in *. now split.
Qed.

(** ** Missing input *)

(** X17.  Missing input is answered 400 before the store is consulted and
    leaves the state unchanged: an authorised upload without a file part
    ("No file uploaded", no identifier is generated); an authorised edit
    without identifier ("Identifier is required", also when the file is
    missing too) or with identifier but without file ("File is required"); an
    authorised delete and a raw read without identifier ("Identifier is
    required"). *)
Theorem missing_input_is_400 (req : request) (now : Z) (uptime : Q) (st : state) :
  authenticate req st = (Done tt, st) ->
  (file_part req = None ->
   serve POST_upload req now uptime st
   = (res_status_json 400 (error_body "No file uploaded"), st)) /\
  (Js.present (params req) = None ->
   (forall f, file_part req = Some f -> includes allowedMimeTypes (mimetype f) = true) ->
   serve PUT_edit req now uptime st
   = (res_status_json 400 (error_body "Identifier is required"), st)) /\
  (Js.present (params req) <> None -> file_part req = None ->
   serve PUT_edit req now uptime st
   = (res_status_json 400 (error_body "File is required"), st)) /\
  (Js.present (params req) = None ->
   serve DELETE_delete req now uptime st
   = (res_status_json 400 (error_body "Identifier is required"), st)) /\
  (Js.present (params req) = None ->
   serve GET_raw req now uptime st
   = (res_status_json 400 (error_body "Identifier is required"), st)).
Proof.
  intros A. split; [|split; [|split; [|split]]].
  - intros P. unfold serve, handler, upload, respond, bind. rewrite A.
    unfold upload_single. now rewrite P.
  - intros Hp Hf. unfold serve, handler, edit, respond, bind. rewrite A.
    unfold upload_single. destruct (file_part req) as [f|].
    + rewrite (Hf f eq_refl). unfold edit_handler. now rewrite Hp.
    + unfold edit_handler. now rewrite Hp.
  - intros Hp P. unfold serve, handler, edit, respond, bind. rewrite A.
    unfold upload_single. rewrite P. unfold edit_handler.
    destruct (Js.present (params req)); [reflexivity|contradiction].
  - intros Hp. unfold serve, handler, delete, respond, bind. now rewrite A, Hp.
  - intros Hp. unfold serve, handler, raw, respond. now rewrite Hp.
Qed.

(** ** Reading without a key *)

(** X18.  The raw read is public: its response depends on the identifier and
    on the stored documents only.  Two requests with the same identifier, on
    states with the same documents, get the same response, whatever the
    credentials they carry and whatever API keys are stored. *)
Theorem raw_ignores_credentials (req req' : request) (now now' : Z)
  (uptime uptime' : Q) (st st' : state) :
  params req = params req' ->
  files st = files st' ->
  fst (serve GET_raw req now uptime st) = fst (serve GET_raw req' now' uptime' st').
Proof.
  intros Hp Hf. unfold serve, handler, raw, respond. rewrite <- Hp.
  destruct (Js.present (params req)); [|reflexivity].
  unfold bind, File_findOne, gets. rewrite <- Hf.
  now destruct (findOne _ (files st)).
Qed.

(** ** Upload, then delete *)

(** X19.  Deleting what was just uploaded restores the documents: after a
    successful upload returning id [i], an authorised delete of [i] is
    answered "File deleted successfully" and leaves exactly the documents
    there were before the upload, provided the [_id]s stored before are below
    the next [ObjectId] and no document stored before is named [i]. *)
Theorem upload_then_delete_restores (req req' : request) (file : uploaded)
  (now : Z) (uptime : Q) (st st' : state) (i : string) :
  respond (upload_handler req (Some file)) st = (res_json (JObj [("id", JStr i)]), st') ->
  (forall d, In d (files st) -> File._id d < objectIds st) ->
  (forall d, In d (files st) -> File.fileName d <> i) ->
  authenticate req' st' = (Done tt, st') ->
  Js.present (params req') = Some i ->
  serve DELETE_delete req' now uptime st'
  = (res_json (message_body "File deleted successfully"), set_files (files st) st').
Proof.
  intros H Hlt Hname A Hp.
  apply upload_saved in H as (_ & S & _).
  apply File_save_inr in S as (E & _ & _ & _ & Hfresh).
  cbn [File.id] in Hfresh.
  set (new := File.mk (objectIds st) i (upload_name req st) (text file)) in *.
  rewrite (delete_run req' i now uptime st' A Hp).
  assert (NoOld : forall x, In x (files st) ->
                    file_matches (ByIdOrFileName i) x = false).
  { intros x Hx. simpl.
    rewrite (proj2 (String.eqb_neq _ _) (Hfresh x Hx)).
    now rewrite (proj2 (String.eqb_neq _ _) (Hname x Hx)). }
  assert (R : resolve i (files st') = Some new).
  { unfold resolve. rewrite E. apply findOne_first; [exact NoOld|].
    simpl. now rewrite String.eqb_refl. }
  rewrite R. f_equal. f_equal. rewrite E.
  rewrite deleteFirst_split; [apply app_nil_r| |].
  - intros x Hx. simpl. apply Nat.eqb_neq. specialize (Hlt x Hx). lia.
  - simpl. apply Nat.eqb_refl.
Qed.

End Handlers.

(** * The further properties on the sample store *)

Lemma Sample_files_distinct : files_distinct Sample.store.
Proof.
  unfold files_distinct. simpl. repeat split.
  - constructor; [intros []|constructor].
  - constructor; [intros []|constructor].
  - intros d [<-|[]]. simpl. lia.
Qed.

Lemma Sample_keys_distinct : keys_distinct Sample.store.
Proof.
  unfold keys_distinct. simpl. repeat split.
  - constructor; [intros []|constructor].
  - constructor; [intros []|constructor].
  - constructor; [intros []|constructor].
  - intros k [<-|[]]. simpl. lia.
Qed.

Lemma Sample_oids_distinct : NoDup (map File._id (files Sample.store)).
Proof. simpl. constructor; [intros []|constructor]. Qed.

Lemma serve_all_keeps_files_distinct_witness :
  files_distinct
    (@serve_all Sample.platform
       [{| arrival_route := POST_upload;
           arrival_request := Sample.upload_request "notes" (Some "true") "world";
           arrival_now := 0%Z; arrival_uptime := 0%Q |};
        {| arrival_route := DELETE_delete;
           arrival_request := Sample.identifier_request "abcde" None;
           arrival_now := 1%Z; arrival_uptime := 1%Q |}]
       Sample.store).
Proof.
  apply (@serve_all_keeps_files_distinct Sample.platform). exact Sample_files_distinct.
Defined.

Lemma serve_all_keeps_keys_distinct_witness :
  keys_distinct
    (@serve_all Sample.platform
       [{| arrival_route := POST_create_key;
           arrival_request := Sample.otp_request (Some "492039");
           arrival_now := 0%Z; arrival_uptime := 0%Q |}]
       Sample.store).
Proof.
  apply (@serve_all_keeps_keys_distinct Sample.platform). exact Sample_keys_distinct.
Defined.

Lemma delete_removes_first_match_witness :
  @serve Sample.platform DELETE_delete (Sample.identifier_request "nothing" None)
    0%Z 0%Q Sample.store
  = (res_status_json 404 (error_body "File not found"), Sample.store) /\
  exists before after,
    files Sample.store = (before ++ Sample.notes :: after)%list /\
    @serve Sample.platform DELETE_delete (Sample.identifier_request "notes" None)
      0%Z 0%Q Sample.store
    = (res_json (message_body "File deleted successfully"),
       set_files (before ++ after)%list Sample.store).
Proof.
  split.
  - apply (@delete_removes_first_match Sample.platform
             (Sample.identifier_request "nothing" None) "nothing" 0%Z 0%Q Sample.store
             eq_refl eq_refl Sample_oids_distinct).
    reflexivity.
  - destruct (@delete_removes_first_match Sample.platform
                (Sample.identifier_request "notes" None) "notes" 0%Z 0%Q Sample.store
                eq_refl eq_refl Sample_oids_distinct) as [_ H].
    destruct (H Sample.notes eq_refl) as (before & after & E & _ & R).
    exists before, after. split; assumption.
Defined.

Lemma delete_then_raw_not_found_witness :
  @serve Sample.platform GET_raw (Sample.identifier_request "notes" None) 5%Z 5%Q
    (snd (@serve Sample.platform DELETE_delete (Sample.identifier_request "notes" None)
            0%Z 0%Q Sample.store))
  = (res_status_json 404 (error_body "File not found"),
     snd (@serve Sample.platform DELETE_delete (Sample.identifier_request "notes" None)
            0%Z 0%Q Sample.store)).
Proof.
  apply (@delete_then_raw_not_found Sample.platform
           (Sample.identifier_request "notes" None)
           (Sample.identifier_request "notes" None) "notes" 0%Z 5%Z 0%Q 5%Q
           Sample.store Sample.notes eq_refl eq_refl eq_refl Sample_oids_distinct
           eq_refl).
  intros x [<-|[]] _. reflexivity.
Defined.

Lemma delete_key_removes_key_witness :
  @serve Sample.platform DELETE_delete_key Sample.authorised 0%Z 0%Q Sample.store
  = (res_status_json 400 (error_body "API Key ID is required"), Sample.store) /\
  @serve Sample.platform DELETE_delete_key (Sample.identifier_request "0xffffff" None)
    0%Z 0%Q Sample.store
  = (res_status_json 400 (error_body "Invalid API Key ID"), Sample.store) /\
  exists before after,
    keys Sample.store = (before ++ Sample.key0 :: after)%list /\
    @serve Sample.platform DELETE_delete_key (Sample.identifier_request "0x00a1b2" None)
      0%Z 0%Q Sample.store
    = (res_json (message_body "API key deleted successfully"),
       set_keys (before ++ after)%list Sample.store).
Proof.
  split; [|split].
  - apply (@delete_key_removes_key Sample.platform Sample.authorised 0%Z 0%Q
             Sample.store eq_refl).
    reflexivity.
  - destruct (@delete_key_removes_key Sample.platform
                (Sample.identifier_request "0xffffff" None) 0%Z 0%Q Sample.store
                eq_refl) as (_ & H & _).
    apply (H "0xffffff" eq_refl). intros x [<-|[]]. discriminate.
  - destruct (@delete_key_removes_key Sample.platform
                (Sample.identifier_request "0x00a1b2" None) 0%Z 0%Q Sample.store
                eq_refl) as (_ & _ & H).
    destruct (H "0x00a1b2" Sample.key0 eq_refl eq_refl)
      as (before & after & E & _ & _ & R).
    exists before, after. split; assumption.
Defined.

Lemma deleted_key_is_rejected_witness :
  @serve Sample.platform GET_list Sample.authorised 1%Z 1%Q
    (snd (@serve Sample.platform DELETE_delete_key
            (Sample.identifier_request "0x00a1b2" None) 0%Z 0%Q Sample.store))
  = (res_status_json 401 (error_body "Invalid API key"),
     snd (@serve Sample.platform DELETE_delete_key
            (Sample.identifier_request "0x00a1b2" None) 0%Z 0%Q Sample.store)).
Proof.
  apply (@deleted_key_is_rejected Sample.platform
           (Sample.identifier_request "0x00a1b2" None) Sample.authorised "0x00a1b2"
           Sample.key0 GET_list 0%Z 1%Z 0%Q 1%Q Sample.store
           eq_refl eq_refl eq_refl).
  - simpl. constructor; [intros []|constructor].
  - reflexivity.
  - reflexivity.
Defined.

Lemma created_key_authenticates_witness :
  let st' := snd (@serve Sample.platform POST_create_key
                    (Sample.otp_request (Some "492039")) 0%Z 0%Q Sample.store) in
  let later :=
    [ {| arrival_route := POST_upload;
         arrival_request := Sample.upload_request "todo" None "milk";
         arrival_now := 1%Z; arrival_uptime := 1%Q |};
      {| arrival_route := DELETE_delete_key;
         arrival_request := Sample.identifier_request "0x00a1b2" None;
         arrival_now := 2%Z; arrival_uptime := 2%Q |} ] in
  let req' :=
    {| headers_apikey := None;
       query_apiKey := Some "2a2a2a2a2a2a2a2a2a2a2a2a2a2a2a2a";
       query_otp := None; query_fileName := None; query_overwrite := None;
       body_fileName := None; params := None; file_part := None |} in
  exists k,
    keys st' = (keys Sample.store ++ [k])%list /\
    ApiKey.key k = "2a2a2a2a2a2a2a2a2a2a2a2a2a2a2a2a" /\
    keys (@serve_all Sample.platform later st') = [k] /\
    authenticate req' (@serve_all Sample.platform later st')
    = (Done tt, @serve_all Sample.platform later st').
Proof.
  intros st' later req'.
  destruct (@created_key_authenticates Sample.platform
              (Sample.otp_request (Some "492039")) 0%Z 0%Q Sample.store
              st'
              (fst (@serve Sample.platform POST_create_key
                      (Sample.otp_request (Some "492039")) 0%Z 0%Q Sample.store)))
    as (k & Hk & _ & _ & _ & _ & _ & Hl).
  - apply surjective_pairing.
  - reflexivity.
  - assert (E : k = ApiKey.mk 2 "2a2a2a2a2a2a2a2a2a2a2a2a2a2a2a2a" "0x0ecfff").
    { vm_compute in Hk. injection Hk as Hk. symmetry. exact Hk. }
    exists k. split; [exact Hk|]. split; [rewrite E; reflexivity|].
    split; [rewrite E; reflexivity|].
    apply Hl; [|rewrite E; reflexivity].
    rewrite E. repeat constructor.
    + intros H. discriminate H.
    + intros _ H. vm_compute in H. discriminate H.
Defined.

Lemma generateRandomId_letters_witness :
  exists s st',
    @generateRandomId Sample.platform 22 Sample.store = (Done s, st') /\
    String.length s = 22 /\ string_forall is_letter s = true.
Proof.
  destruct (@generateRandomId_letters Sample.platform 22 Sample.store
              Sample_random_range) as (s & st' & E & L & F & _).
  exists s, st'. repeat split; assumption.
Defined.

Lemma generateApiKeyID_format_witness :
  exists digits st',
    @generateApiKeyID Sample.platform Sample.store = (Done ("0x" ++ digits), st') /\
    String.length digits = 6.
Proof.
  destruct (@generateApiKeyID_format Sample.platform Sample.store Sample_random_range)
    as (digits & st' & E & L & _).
  exists digits, st'. split; assumption.
Defined.

Lemma GET_changes_nothing_witness :
  snd (@serve Sample.platform GET_list Sample.authorised 0%Z 0%Q Sample.store)
  = Sample.store.
Proof.
  apply (@GET_changes_nothing Sample.platform GET_list Sample.authorised 0%Z 0%Q
           Sample.store eq_refl).
Defined.

Lemma fileFilter_rejects_witness :
  @serve Sample.platform POST_upload
    {| headers_apikey := Some (ApiKey.key Sample.key0); query_apiKey := None;
       query_otp := None; query_fileName := Some "logo"; query_overwrite := None;
       body_fileName := None; params := None;
       file_part := Some {| mimetype := "image/png"; text := "PNG" |} |}
    0%Z 0%Q Sample.store
  = (res_status_json 500
       (error_body "Only JSON, TXT, XML, and YAML files are allowed"), Sample.store).
Proof.
  apply (@fileFilter_rejects Sample.platform POST_upload
           {| headers_apikey := Some (ApiKey.key Sample.key0); query_apiKey := None;
              query_otp := None; query_fileName := Some "logo"; query_overwrite := None;
              body_fileName := None; params := None;
              file_part := Some {| mimetype := "image/png"; text := "PNG" |} |}
           {| mimetype := "image/png"; text := "PNG" |} 0%Z 0%Q Sample.store
           (or_introl eq_refl) eq_refl eq_refl eq_refl).
Defined.

Lemma edit_then_raw_witness :
  @serve Sample.platform GET_raw (Sample.identifier_request "notes" None) 1%Z 1%Q
    (snd (@serve Sample.platform PUT_edit
            (Sample.identifier_request "notes" (Some "world")) 0%Z 0%Q Sample.store))
  = (res_json (JStr "world"),
     snd (@serve Sample.platform PUT_edit
            (Sample.identifier_request "notes" (Some "world")) 0%Z 0%Q Sample.store)).
Proof.
  apply (@edit_then_raw Sample.platform
           (Sample.identifier_request "notes" (Some "world"))
           (Sample.identifier_request "notes" None) (Sample.text_plain "world")
           "notes" 0%Z 1%Z 0%Q 1%Q Sample.store Sample.notes
           eq_refl eq_refl eq_refl eq_refl eq_refl eq_refl).
Defined.

Lemma upload_name_choice_witness :
  exists n,
    files (snd (@respond (@upload_handler Sample.platform
                            (Sample.upload_request "todo" None "milk")
                            (Some (Sample.text_plain "milk"))) Sample.store))
    = (files Sample.store ++ [File.mk 2 "DKRYf" n "milk"])%list /\
    n = "todo".
Proof.
  destruct (@upload_name_choice Sample.platform
              (Sample.upload_request "todo" None "milk") (Sample.text_plain "milk")
              Sample.store
              (snd (@respond (@upload_handler Sample.platform
                                (Sample.upload_request "todo" None "milk")
                                (Some (Sample.text_plain "milk"))) Sample.store))
              "DKRYf" eq_refl)
    as (n & E & _ & _ & Hq & _).
  exists n. split; [exact E|]. exact (proj1 (Hq "todo" eq_refl)).
Defined.

Lemma missing_input_is_400_witness :
  @serve Sample.platform POST_upload Sample.authorised 0%Z 0%Q Sample.store
  = (res_status_json 400 (error_body "No file uploaded"), Sample.store).
Proof.
  apply (@missing_input_is_400 Sample.platform Sample.authorised 0%Z 0%Q Sample.store
           eq_refl).
  reflexivity.
Defined.

Lemma raw_ignores_credentials_witness :
  fst (@serve Sample.platform GET_raw (Sample.identifier_request "notes" None)
         0%Z 0%Q Sample.store)
  = fst (@serve Sample.platform GET_raw
           {| headers_apikey := None; query_apiKey := Some "wrong"; query_otp := None;
              query_fileName := None; query_overwrite := None; body_fileName := None;
              params := Some "notes"; file_part := None |}
           9%Z 9%Q (set_keys [] Sample.store)).
Proof.
  apply (@raw_ignores_credentials Sample.platform); reflexivity.
Defined.

Lemma upload_then_delete_restores_witness :
  @serve Sample.platform DELETE_delete (Sample.identifier_request "DKRYf" None)
    1%Z 1%Q
    (snd (@respond (@upload_handler Sample.platform
                      (Sample.upload_request "todo" None "milk")
                      (Some (Sample.text_plain "milk"))) Sample.store))
  = (res_json (message_body "File deleted successfully"),
     set_files (files Sample.store)
       (snd (@respond (@upload_handler Sample.platform
                         (Sample.upload_request "todo" None "milk")
                         (Some (Sample.text_plain "milk"))) Sample.store))).
Proof.
  apply (@upload_then_delete_restores Sample.platform
           (Sample.upload_request "todo" None "milk")
           (Sample.identifier_request "DKRYf" None) (Sample.text_plain "milk")
           1%Z 1%Q Sample.store _ "DKRYf").
  - reflexivity.
  - intros d [<-|[]]. simpl. lia.
  - intros d [<-|[]]. discriminate.
  - reflexivity.
  - reflexivity.
Defined.
